(** * Governance event monitor: analytics engine, anomaly detector, scanner

    A shallow embedding of [ai-backend/blockchain/monitor.py]: the
    [EventProcessor] aggregates, the [AnomalyDetector] rules over its bounded
    window of recent votes, and the polling and cleanup passes of
    [BlockchainMonitor], followed by the properties the specification states
    about them. *)

From Stdlib Require Import ZArith QArith List Lia.
From stdpp Require Import base gmap sets list strings.

Set Warnings "-clear-no-such-hyp".

Local Open Scope string_scope.
Local Open Scope list_scope.
Local Open Scope Z_scope.

(** ** Enumerations *)

Inductive ChainType := ETHEREUM | POLYGON | ARBITRUM | OPTIMISM | BSC.

Definition chain_value (c : ChainType) : string :=
  match c with
  | ETHEREUM => "ethereum"
  | POLYGON => "polygon"
  | ARBITRUM => "arbitrum"
  | OPTIMISM => "optimism"
  | BSC => "bsc"
  end.

Inductive EventType :=
  | PROPOSAL_CREATED | VOTE_CAST | PROPOSAL_EXECUTED | PROPOSAL_CANCELED
  | TREASURY_UPDATE | TOKEN_TRANSFER | DELEGATION_CHANGED.

(** [EventType(name)]: the member whose value is [name]; Python raises
    [ValueError] for any other string, here [None]. *)
Definition EventType_of_value (name : string) : option EventType :=
  if decide (name = "ProposalCreated") then Some PROPOSAL_CREATED
  else if decide (name = "VoteCast") then Some VOTE_CAST
  else if decide (name = "ProposalExecuted") then Some PROPOSAL_EXECUTED
  else if decide (name = "ProposalCanceled") then Some PROPOSAL_CANCELED
  else if decide (name = "TreasuryUpdate") then Some TREASURY_UPDATE
  else if decide (name = "Transfer") then Some TOKEN_TRANSFER
  else if decide (name = "DelegationChanged") then Some DELEGATION_CHANGED
  else None.

Global Instance ChainType_eq_dec : EqDecision ChainType.
Proof. solve_decision. Defined.

(** ** Time

    A naive [datetime] is a point on the microsecond line and a [timedelta]
    a signed number of microseconds; [total_seconds] is the exact quotient
    by [10^6].  The comparisons the code makes against 60 and 300 are
    decided by that quotient. *)

Definition datetime := Z.
Definition timedelta := Z.

Definition total_seconds (d : timedelta) : Q := d # 1000000.

Definition timedelta_days (n : Z) : timedelta := n * 86400 * 1000000.
Definition timedelta_seconds (n : Z) : timedelta := n * 1000000.

Definition Qltb (x y : Q) : bool := negb (Qle_bool y x).

(** ** Event records *)

Record ProposalEvent := {
  pe_proposal_id : Z;
  pe_proposer : string;
  pe_title : string;
  pe_description : string;
  pe_start_block : Z;
  pe_end_block : Z;
  pe_quorum : Z;
  pe_event_time : datetime;
  pe_chain : ChainType
}.

Record VoteEvent := {
  proposal_id : Z;
  voter : string;
  support : bool;
  voting_power : Z;
  reason : string;
  event_time : datetime;
  chain : ChainType
}.

(** ** Logging

    A log line is a level and the text of its f-string, kept as the
    template's tag together with the interpolated values. *)

Inductive LogLevel := INFO | WARNING | ERROR.

(** The three messages [check_voting_anomaly] hands to [_create_alert]. *)
Inductive AlertMessage :=
  | LargeVoteDetected (tokens : Z)
  | RapidVotingDetected (seconds_apart : Q)
  | PotentialCoordinatedVoting (same_support total : nat).

Inductive LogMessage :=
  | ProcessingProposal (pid : Z) (chain_name : string)
  | ProcessingVote (pid : Z) (by_voter : string)
  | AnomalyDetected (m : AlertMessage)
  | ErrorMonitoring (chain_name : string)
  | ErrorProcessingBlock (block_number : Z) (chain_name : string)
  | ErrorProcessingTransaction (tx_hash : string) (chain_name : string)
  | ErrorProcessingEvent
  | CleanedUpOldData.

Record LogRecord := { level : LogLevel; message : LogMessage }.

Definition logger_info (m : LogMessage) : LogRecord := {| level := INFO; message := m |}.
Definition logger_warning (m : LogMessage) : LogRecord := {| level := WARNING; message := m |}.
Definition logger_error (m : LogMessage) : LogRecord := {| level := ERROR; message := m |}.

Definition is_warning (r : LogRecord) : bool :=
  match level r with WARNING => true | _ => false end.

(** ** Anomaly detector *)

Record Alert := {
  alert_type : string;
  timestamp : datetime;
  alert_proposal_id : Z;
  alert_voter : string;
  alert_message : AlertMessage;
  severity : string
}.

Record AnomalyDetector := {
  recent_votes : list VoteEvent;
  alerts : list Alert
}.

(** [vote_thresholds] and the [maxlen] of the deque.  The quotient of two
    counts bounded by the window size lies on the same side of the float
    [0.95] as of the exact 95/100. *)
Definition large_vote_threshold : Z := 100000.
Definition rapid_voting_threshold : Q := inject_Z 60.
Definition suspicious_pattern_threshold : Q := 95 # 100.
Definition recent_votes_maxlen : nat := 100.

Definition AnomalyDetector_init : AnomalyDetector :=
  {| recent_votes := []; alerts := [] |}.

(** [deque(maxlen=n).append(x)]: a full deque discards its leftmost item. *)
Definition deque_append {A} (maxlen : nat) (x : A) (d : list A) : list A :=
  if (maxlen <=? length d)%nat then drop 1 d ++ [x] else d ++ [x].

Definition _get_severity (alert_type : string) : string :=
  if decide (alert_type = "large_vote") then "medium"
  else if decide (alert_type = "rapid_voting") then "low"
  else if decide (alert_type = "coordinated_voting") then "high"
  else "medium".

(** [_create_alert]: [now] is the reading of [datetime.now()]. *)
Definition _create_alert (now : datetime) (alert_type : string)
    (event : VoteEvent) (msg : AlertMessage) (self : AnomalyDetector)
    : AnomalyDetector * list LogRecord :=
  let alert := {| alert_type := alert_type;
                  timestamp := now;
                  alert_proposal_id := proposal_id event;
                  alert_voter := voter event;
                  alert_message := msg;
                  severity := _get_severity alert_type |} in
  ({| recent_votes := recent_votes self; alerts := alerts self ++ [alert] |},
   [logger_warning (AnomalyDetected msg)]).

(** The comprehension of [_check_coordinated_voting]. *)
Definition recent_same_proposal (vote_event : VoteEvent) (window : list VoteEvent)
    : list VoteEvent :=
  List.filter
    (fun v => Z.eqb (proposal_id v) (proposal_id vote_event)
              && Qltb (total_seconds (event_time vote_event - event_time v)) (inject_Z 300))
    window.

Definition same_support (vote_event : VoteEvent) (l : list VoteEvent) : nat :=
  length (List.filter (fun v => Bool.eqb (support v) (support vote_event)) l).

Definition _check_coordinated_voting (now : datetime) (vote_event : VoteEvent)
    (self : AnomalyDetector) : AnomalyDetector * list LogRecord :=
  let rsp := recent_same_proposal vote_event (recent_votes self) in
  if (5 <? length rsp)%nat then
    let same := same_support vote_event rsp in
    if Qltb suspicious_pattern_threshold
            (inject_Z (Z.of_nat same) / inject_Z (Z.of_nat (length rsp)))
    then _create_alert now "coordinated_voting" vote_event
           (PotentialCoordinatedVoting same (length rsp)) self
    else (self, [])
  else (self, []).

Definition check_large_vote (now : datetime) (vote_event : VoteEvent)
    (self : AnomalyDetector) : AnomalyDetector * list LogRecord :=
  if large_vote_threshold <? voting_power vote_event then
    _create_alert now "large_vote" vote_event
      (LargeVoteDetected (voting_power vote_event)) self
  else (self, []).

Definition check_rapid_voting (now : datetime) (vote_event : VoteEvent)
    (self : AnomalyDetector) : AnomalyDetector * list LogRecord :=
  if (1 <? length (recent_votes self))%nat then
    match recent_votes self !! (length (recent_votes self) - 2)%nat with
    | Some prev =>
        let time_diff := total_seconds (event_time vote_event - event_time prev) in
        if Qltb time_diff rapid_voting_threshold then
          _create_alert now "rapid_voting" vote_event (RapidVotingDetected time_diff) self
        else (self, [])
    | None => (self, [])
    end
  else (self, []).

Definition check_voting_anomaly (now : datetime) (vote_event : VoteEvent)
    (self : AnomalyDetector) : AnomalyDetector * list LogRecord :=
  let self0 := {| recent_votes := deque_append recent_votes_maxlen vote_event (recent_votes self);
                  alerts := alerts self |} in
  let '(self1, log1) := check_large_vote now vote_event self0 in
  let '(self2, log2) := check_rapid_voting now vote_event self1 in
  let '(self3, log3) := _check_coordinated_voting now vote_event self2 in
  (self3, log1 ++ log2 ++ log3).

(** ** Event processor *)

Record VelocitySample := {
  vs_timestamp : datetime;
  cumulative_votes : nat
}.

Record GasAnalysis := { total_spent : Z; avg_price : Z }.

(** One value of the [proposal_analytics] dict. *)
Record Analytics := {
  created_at : datetime;
  votes_for : Z;
  votes_against : Z;
  unique_voters : gset string;
  voting_velocity : list VelocitySample;
  gas_analysis : GasAnalysis;
  sentiment_score : Q
}.

(** One item of a voter's ['votes'] list. *)
Record VoteRecord := {
  vr_proposal_id : Z;
  vr_support : bool;
  vr_power : Z;
  vr_timestamp : datetime
}.

(** [event_history] and [voting_patterns] are [defaultdict]s; the inner
    dict of a voter only ever holds the key ["votes"]. *)
Record EventProcessor := {
  event_history : gmap string (list ProposalEvent);
  voting_patterns : gmap string (gmap string (list VoteRecord));
  proposal_analytics : gmap Z Analytics;
  anomaly_detector : AnomalyDetector
}.

Definition EventProcessor_init : EventProcessor :=
  {| event_history := ∅;
     voting_patterns := ∅;
     proposal_analytics := ∅;
     anomaly_detector := AnomalyDetector_init |}.

Definition new_analytics (event : ProposalEvent) : Analytics :=
  {| created_at := pe_event_time event;
     votes_for := 0;
     votes_against := 0;
     unique_voters := ∅;
     voting_velocity := [];
     gas_analysis := {| total_spent := 0; avg_price := 0 |};
     sentiment_score := 0%Q |}.

Definition process_proposal_event (event : ProposalEvent) (self : EventProcessor)
    : EventProcessor * list LogRecord :=
  let proposals := default [] (event_history self !! "proposals") in
  ({| event_history := <["proposals" := proposals ++ [event]]> (event_history self);
      voting_patterns := voting_patterns self;
      proposal_analytics :=
        <[pe_proposal_id event := new_analytics event]> (proposal_analytics self);
      anomaly_detector := anomaly_detector self |},
   [logger_info (ProcessingProposal (pe_proposal_id event) (chain_value (pe_chain event)))]).

(** The body of [if event.proposal_id in self.proposal_analytics]. *)
Definition update_analytics (event : VoteEvent) (analytics : Analytics) : Analytics :=
  let voters := unique_voters analytics ∪ {[voter event]} in
  {| created_at := created_at analytics;
     votes_for := if support event then votes_for analytics + voting_power event
                  else votes_for analytics;
     votes_against := if support event then votes_against analytics
                      else votes_against analytics + voting_power event;
     unique_voters := voters;
     voting_velocity := voting_velocity analytics ++
       [{| vs_timestamp := event_time event; cumulative_votes := size voters |}];
     gas_analysis := gas_analysis analytics;
     sentiment_score := sentiment_score analytics |}.

Definition vote_record (event : VoteEvent) : VoteRecord :=
  {| vr_proposal_id := proposal_id event;
     vr_support := support event;
     vr_power := voting_power event;
     vr_timestamp := event_time event |}.

(** The "Update voting patterns" block: the [defaultdict] lookup creates
    the voter's dict, the ['votes'] list is created when missing, and the
    record is appended. *)
Definition update_voting_patterns (event : VoteEvent)
    (patterns : gmap string (gmap string (list VoteRecord)))
    : gmap string (gmap string (list VoteRecord)) :=
  let voter_pattern := default ∅ (patterns !! voter event) in
  let votes := default [] (voter_pattern !! "votes") in
  <[voter event := <["votes" := votes ++ [vote_record event]]> voter_pattern]> patterns.

Definition process_vote_event (now : datetime) (event : VoteEvent) (self : EventProcessor)
    : EventProcessor * list LogRecord :=
  let analytics' :=
    match proposal_analytics self !! proposal_id event with
    | Some analytics =>
        <[proposal_id event := update_analytics event analytics]> (proposal_analytics self)
    | None => proposal_analytics self
    end in
  let '(detector', alert_log) := check_voting_anomaly now event (anomaly_detector self) in
  ({| event_history := event_history self;
      voting_patterns := update_voting_patterns event (voting_patterns self);
      proposal_analytics := analytics';
      anomaly_detector := detector' |},
   logger_info (ProcessingVote (proposal_id event) (voter event)) :: alert_log).

(** The consumer applied to a stream of votes, each paired with the clock
    reading taken while it is processed. *)
Fixpoint process_vote_events (events : list (datetime * VoteEvent)) (self : EventProcessor)
    : EventProcessor * list LogRecord :=
  match events with
  | [] => (self, [])
  | (now, event) :: rest =>
      let '(self1, log1) := process_vote_event now event self in
      let '(self2, log2) := process_vote_events rest self1 in
      (self2, log1 ++ log2)
  end.

(** *** Read accessors *)

(** The dict [get_proposal_analytics] returns: the shallow copy with
    ['unique_voters'] replaced by its size, and ['avg_voting_interval']
    present only when the code assigns it. *)
Record Snapshot := {
  snap_created_at : datetime;
  snap_votes_for : Z;
  snap_votes_against : Z;
  snap_unique_voters : nat;
  snap_voting_velocity : list VelocitySample;
  snap_gas_analysis : GasAnalysis;
  snap_sentiment_score : Q;
  avg_voting_interval : option Q
}.

Definition Qsum (l : list Q) : Q := fold_right Qplus 0%Q l.

(** [np.mean] of a non-empty list, as the exact quotient. *)
Definition np_mean (l : list Q) : Q := (Qsum l / inject_Z (Z.of_nat (length l)))%Q.

(** One step of the loop below: [velocity[i-1]] and [velocity[i]], both in
    range for the indices the loop visits. *)
Definition time_diff_at (velocity : list VelocitySample) (i : nat) : option Q :=
  match velocity !! (i - 1)%nat, velocity !! i with
  | Some prev, Some curr => Some (total_seconds (vs_timestamp curr - vs_timestamp prev))
  | _, _ => None
  end.

(** The loop [for i in range(1, len(velocity))] collecting [time_diffs]. *)
Definition time_diffs (velocity : list VelocitySample) : list Q :=
  omap (time_diff_at velocity) (seq 1 (length velocity - 1)).

Definition get_proposal_analytics (self : EventProcessor) (proposal_id : Z)
    : option Snapshot :=
  match proposal_analytics self !! proposal_id with
  | None => None
  | Some analytics =>
      Some {| snap_created_at := created_at analytics;
              snap_votes_for := votes_for analytics;
              snap_votes_against := votes_against analytics;
              snap_unique_voters := size (unique_voters analytics);
              snap_voting_velocity := voting_velocity analytics;
              snap_gas_analysis := gas_analysis analytics;
              snap_sentiment_score := sentiment_score analytics;
              avg_voting_interval :=
                match voting_velocity analytics with
                | [] => None
                | _ :: _ =>
                    let diffs := time_diffs (voting_velocity analytics) in
                    Some (match diffs with [] => 0%Q | _ :: _ => np_mean diffs end)
                end |}
  end.

Record VoterProfile := {
  total_votes : nat;
  support_ratio : Q;
  avg_voting_power : Q;
  first_vote : datetime;
  last_vote : datetime;
  most_active_period : string
}.

Section VoterProfiles.

(** [timestamp.strftime('%Y-%m')], the calendar month of a [datetime]. *)
Variable strftime_Ym : datetime -> string.

(** [monthly_counts[month_key] += 1] on an insertion-ordered dict. *)
Fixpoint incr_count (key : string) (counts : list (string * nat)) : list (string * nat) :=
  match counts with
  | [] => [(key, 1%nat)]
  | (k, n) :: rest =>
      if decide (k = key) then (k, S n) :: rest else (k, n) :: incr_count key rest
  end.

(** [max(counts, key=counts.get)]: the first key, in insertion order,
    whose count is maximal. *)
Definition max_by_count (first : string * nat) (rest : list (string * nat)) : string :=
  fst (fold_left (fun best kv => if (snd best <? snd kv)%nat then kv else best) rest first).

Definition _find_most_active_period (votes : list VoteRecord) : string :=
  if (length votes <? 2)%nat then "insufficient_data"
  else
    let monthly_counts :=
      fold_left (fun counts vote => incr_count (strftime_Ym (vr_timestamp vote)) counts)
                votes [] in
    match monthly_counts with
    | [] => "no_data"
    | first :: rest => max_by_count first rest
    end.

Definition support_votes (votes : list VoteRecord) : nat :=
  length (List.filter vr_support votes).

Definition get_voter_profile (self : EventProcessor) (voter_address : string)
    : option VoterProfile :=
  match voting_patterns self !! voter_address with
  | None => None
  | Some pattern =>
      match default [] (pattern !! "votes") with
      | [] => None
      | v :: vs =>
          let votes := v :: vs in
          Some {| total_votes := length votes;
                  support_ratio :=
                    (inject_Z (Z.of_nat (support_votes votes))
                     / inject_Z (Z.of_nat (length votes)))%Q;
                  avg_voting_power := np_mean (map (fun v => inject_Z (vr_power v)) votes);
                  first_vote := fold_left Z.min (map vr_timestamp vs) (vr_timestamp v);
                  last_vote := fold_left Z.max (map vr_timestamp vs) (vr_timestamp v);
                  most_active_period := _find_most_active_period votes |}
      end
  end.

End VoterProfiles.

(** ** Blockchain monitor *)

Definition ChainType_to_nat (c : ChainType) : nat :=
  match c with
  | ETHEREUM => 0 | POLYGON => 1 | ARBITRUM => 2 | OPTIMISM => 3 | BSC => 4
  end%nat.

Definition ChainType_of_nat (n : nat) : ChainType :=
  match n with
  | 0 => ETHEREUM | 1 => POLYGON | 2 => ARBITRUM | 3 => OPTIMISM | _ => BSC
  end%nat.

Global Instance ChainType_countable : Countable ChainType.
Proof.
  apply (inj_countable' ChainType_to_nat ChainType_of_nat).
  intros []; reflexivity.
Defined.

(** Values of a decoded event's argument dict. *)
Inductive PyValue :=
  | PyInt (z : Z)
  | PyStr (s : string)
  | PyBool (b : bool).

Record BlockchainEvent := {
  be_chain : ChainType;
  be_event_type : EventType;
  transaction_hash : string;
  be_block_number : Z;
  be_timestamp : datetime;
  contract_address : string;
  data : gmap string PyValue;
  gas_used : Z;
  gas_price : Z
}.

Record Transaction := {
  tx_to : option string;
  tx_hash : string;
  tx_gas : Z;
  tx_gasPrice : Z
}.

Record Log := {
  log_address : string;
  log_topics : list string;
  log_data : string
}.

Record Block := {
  blk_number : Z;
  blk_timestamp : Z;
  transactions : list Transaction
}.

(** The provider as one pass sees it; [None] is a raised exception. *)
Record Web3 := {
  eth_block_number : option Z;
  eth_get_block : Z -> option Block;
  eth_get_transaction_receipt : string -> option (list Log)
}.

Record ChainInfo := {
  web3 : Web3;
  block_time : Z;
  last_block : Z
}.

(** A monitored contract.  [contract] stands for
    [contract.events.get_event_by_selector(log.topics[0]).processLog(log)]:
    the event name and argument dict, or [None] when any step raises. *)
Record ContractInfo := {
  contract : Log -> option (string * gmap string PyValue);
  ci_chain : ChainType;
  ci_type : string;
  ci_address : string
}.

Record BlockchainMonitor := {
  chains : gmap ChainType ChainInfo;
  event_processor : EventProcessor;
  contracts : gmap string ContractInfo;
  running : bool;
  event_queue : list BlockchainEvent
}.

Definition set_event_queue (q : list BlockchainEvent) (self : BlockchainMonitor)
    : BlockchainMonitor :=
  {| chains := chains self; event_processor := event_processor self;
     contracts := contracts self; running := running self; event_queue := q |}.

Definition set_chains (c : gmap ChainType ChainInfo) (self : BlockchainMonitor)
    : BlockchainMonitor :=
  {| chains := c; event_processor := event_processor self;
     contracts := contracts self; running := running self;
     event_queue := event_queue self |}.

Definition set_event_processor (ep : EventProcessor) (self : BlockchainMonitor)
    : BlockchainMonitor :=
  {| chains := chains self; event_processor := ep;
     contracts := contracts self; running := running self;
     event_queue := event_queue self |}.

Definition set_last_block (n : Z) (info : ChainInfo) : ChainInfo :=
  {| web3 := web3 info; block_time := block_time info; last_block := n |}.

(** [f"{chain.value}:{address}"] *)
Definition contract_key (chain : ChainType) (address : string) : string :=
  String.append (chain_value chain) (String.append ":" address).

(** [datetime.fromtimestamp], with the process's UTC offset taken as zero. *)
Definition fromtimestamp (seconds : Z) : datetime := timedelta_seconds seconds.

(** [range(lo, hi)] *)
Definition range (lo hi : Z) : list Z :=
  map (fun i => lo + Z.of_nat i) (seq 0 (Z.to_nat (hi - lo))).

(** [_parse_event_log]: every failure of decoding is swallowed by
    [except Exception: pass]. *)
Definition _parse_event_log (chain : ChainType) (log : Log) (tx : Transaction)
    (block : Block) (self : BlockchainMonitor) : BlockchainMonitor :=
  match contracts self !! contract_key chain (log_address log) with
  | None => self
  | Some contract_info =>
      match contract contract_info log with
      | None => self
      | Some (event_name, event_data) =>
          match EventType_of_value event_name with
          | None => self
          | Some event_type =>
              let blockchain_event :=
                {| be_chain := chain;
                   be_event_type := event_type;
                   transaction_hash := tx_hash tx;
                   be_block_number := blk_number block;
                   be_timestamp := fromtimestamp (blk_timestamp block);
                   contract_address := log_address log;
                   data := event_data;
                   gas_used := tx_gas tx;
                   gas_price := tx_gasPrice tx |} in
              set_event_queue (event_queue self ++ [blockchain_event]) self
          end
      end
  end.

(** [_process_transaction]: a failing receipt fetch is logged and the
    transaction is given up. *)
Definition _process_transaction (chain : ChainType) (tx : Transaction) (block : Block)
    (self : BlockchainMonitor) : BlockchainMonitor * list LogRecord :=
  let failed := (self, [logger_error (ErrorProcessingTransaction (tx_hash tx) (chain_value chain))]) in
  match chains self !! chain with
  | None => failed
  | Some chain_info =>
      match eth_get_transaction_receipt (web3 chain_info) (tx_hash tx) with
      | None => failed
      | Some logs =>
          (fold_left
             (fun self log =>
                if decide (is_Some (contracts self !! contract_key chain (log_address log)))
                then _parse_event_log chain log tx block self
                else self)
             logs self, [])
      end
  end.

(** The loop over [block.transactions] inside [_process_block]. *)
Fixpoint process_transactions (chain : ChainType) (block : Block)
    (txs : list Transaction) (self : BlockchainMonitor)
    : BlockchainMonitor * list LogRecord :=
  match txs with
  | [] => (self, [])
  | tx :: rest =>
      let '(self1, log1) :=
        match tx_to tx with
        | Some to =>
            if decide (to = "") then (self, [])
            else if decide (is_Some (contracts self !! contract_key chain to))
            then _process_transaction chain tx block self
            else (self, [])
        | None => (self, [])
        end in
      let '(self2, log2) := process_transactions chain block rest self1 in
      (self2, log1 ++ log2)
  end.

Inductive Outcome := Returned | Raised.

(** [_process_block]: the provider lookup sits before the [try]; a failing
    block fetch is caught inside, logged, and the call returns normally. *)
Definition _process_block (chain : ChainType) (block_number : Z)
    (self : BlockchainMonitor) : BlockchainMonitor * list LogRecord * Outcome :=
  match chains self !! chain with
  | None => (self, [], Raised)
  | Some chain_info =>
      match eth_get_block (web3 chain_info) block_number with
      | None =>
          (self, [logger_error (ErrorProcessingBlock block_number (chain_value chain))],
           Returned)
      | Some block =>
          let '(self1, log1) := process_transactions chain block (transactions block) self in
          (self1, log1, Returned)
      end
  end.

(** The loop [for block_num in range(...): await self._process_block(...)];
    it stops at the first call that raises. *)
Fixpoint process_blocks (chain : ChainType) (block_nums : list Z)
    (self : BlockchainMonitor) : BlockchainMonitor * list LogRecord * Outcome :=
  match block_nums with
  | [] => (self, [], Returned)
  | n :: rest =>
      match _process_block chain n self with
      | (self1, log1, Raised) => (self1, log1, Raised)
      | (self1, log1, Returned) =>
          let '(self2, log2, out) := process_blocks chain rest self1 in
          (self2, log1 ++ log2, out)
      end
  end.

(** One iteration of the [while self.running] loop of [_monitor_chain]:
    the monitor afterwards, the lines logged, and the seconds slept.
    [None] is the [KeyError] of [self.chains[chain]] before the loop. *)
Definition monitor_chain_pass (chain : ChainType) (self : BlockchainMonitor)
    : option (BlockchainMonitor * list LogRecord * Z) :=
  match chains self !! chain with
  | None => None
  | Some chain_info =>
      match eth_block_number (web3 chain_info) with
      | None => Some (self, [logger_error (ErrorMonitoring (chain_value chain))], 30)
      | Some current_block =>
          let last_block :=
            if last_block chain_info =? 0 then current_block - 100
            else last_block chain_info in
          match process_blocks chain (range (last_block + 1) (current_block + 1)) self with
          | (self1, log1, Raised) =>
              Some (self1, log1 ++ [logger_error (ErrorMonitoring (chain_value chain))], 30)
          | (self1, log1, Returned) =>
              Some (set_chains (alter (set_last_block current_block) chain (chains self1)) self1,
                    log1, block_time chain_info)
          end
      end
  end.

(** The cursor of a chain, when the chain is registered. *)
Definition cursor (chain : ChainType) (self : BlockchainMonitor) : option Z :=
  last_block <$> chains self !! chain.

(** One iteration of the loop of [_cleanup_old_data], run at time [now]. *)
Definition _cleanup_old_data (now : datetime) (self : BlockchainMonitor)
    : BlockchainMonitor * list LogRecord * Z :=
  let cutoff_time := now - timedelta_days 7 in
  let ep := event_processor self in
  let detector :=
    {| recent_votes := recent_votes (anomaly_detector ep);
       alerts := List.filter (fun alert => cutoff_time <? timestamp alert)
                             (alerts (anomaly_detector ep)) |} in
  (set_event_processor
     {| event_history := event_history ep;
        voting_patterns := voting_patterns ep;
        proposal_analytics := proposal_analytics ep;
        anomaly_detector := detector |} self,
   [logger_info CleanedUpOldData], 3600).

(** *** The queue consumer *)

(** [event.data[key]] for an argument the ABI declares an integer; [None]
    is the [KeyError] of a missing key (a value of another type is treated
    alike). *)
Definition data_int (data : gmap string PyValue) (key : string) : option Z :=
  match data !! key with Some (PyInt z) => Some z | _ => None end.

Definition data_str (data : gmap string PyValue) (key : string) : option string :=
  match data !! key with Some (PyStr s) => Some s | _ => None end.

(** [bool(value)] *)
Definition py_bool (v : PyValue) : bool :=
  match v with
  | PyInt z => negb (z =? 0)
  | PyStr s => if decide (s = "") then false else true
  | PyBool b => b
  end.

(** [_handle_blockchain_event]; [None] is an exception leaving the call. *)
Definition _handle_blockchain_event (now : datetime) (event : BlockchainEvent)
    (ep : EventProcessor) : option (EventProcessor * list LogRecord) :=
  match be_event_type event with
  | PROPOSAL_CREATED =>
      pid ← data_int (data event) "proposalId";
      proposer ← data_str (data event) "proposer";
      description ← data_str (data event) "description";
      start_block ← data_int (data event) "startBlock";
      end_block ← data_int (data event) "endBlock";
      Some (process_proposal_event
              {| pe_proposal_id := pid;
                 pe_proposer := proposer;
                 pe_title := default "Unknown" (data_str (data event) "title");
                 pe_description := description;
                 pe_start_block := start_block;
                 pe_end_block := end_block;
                 pe_quorum := default 0 (data_int (data event) "quorum");
                 pe_event_time := be_timestamp event;
                 pe_chain := be_chain event |} ep)
  | VOTE_CAST =>
      pid ← data_int (data event) "proposalId";
      voter ← data_str (data event) "voter";
      support ← data event !! "support";
      weight ← data_int (data event) "weight";
      Some (process_vote_event now
              {| proposal_id := pid;
                 voter := voter;
                 support := py_bool support;
                 voting_power := weight;
                 reason := default "" (data_str (data event) "reason");
                 event_time := be_timestamp event;
                 chain := be_chain event |} ep)
  | _ => Some (ep, [])
  end.

(** One iteration of [_process_events] with an event on the queue: an
    exception of the handler is logged and the loop goes on. *)
Definition _process_events (now : datetime) (self : BlockchainMonitor)
    : BlockchainMonitor * list LogRecord :=
  match event_queue self with
  | [] => (self, [])
  | event :: rest =>
      let self1 := set_event_queue rest self in
      match _handle_blockchain_event now event (event_processor self1) with
      | Some (ep, log) => (set_event_processor ep self1, log)
      | None => (self1, [logger_error ErrorProcessingEvent])
      end
  end.

(** ** Vocabulary of the properties *)

Definition Zsum (l : list Z) : Z := fold_right Z.add 0 l.

(** The votes of a stream cast on one proposal, in arrival order. *)
Definition votes_on (pid : Z) (events : list (datetime * VoteEvent)) : list VoteEvent :=
  List.filter (fun e => proposal_id e =? pid) (map snd events).

(** The votes recorded for an address. *)
Definition votes_of (self : EventProcessor) (address : string) : list VoteRecord :=
  default [] (default ∅ (voting_patterns self !! address) !! "votes").

(** The detector fed a stream of votes. *)
Definition feed_detector (events : list (datetime * VoteEvent)) (d : AnomalyDetector)
    : AnomalyDetector :=
  fold_left (fun d e => fst (check_voting_anomaly (fst e) (snd e) d)) events d.

(** Deltas between consecutive timestamps, in seconds. *)
Fixpoint consecutive_deltas (ts : list datetime) : list Q :=
  match ts with
  | a :: rest =>
      match rest with
      | b :: _ => total_seconds (b - a) :: consecutive_deltas rest
      | [] => []
      end
  | [] => []
  end.

Definition make_alert (now : datetime) (alert_type : string) (event : VoteEvent)
    (msg : AlertMessage) : Alert :=
  {| alert_type := alert_type;
     timestamp := now;
     alert_proposal_id := proposal_id event;
     alert_voter := voter event;
     alert_message := msg;
     severity := _get_severity alert_type |}.

(** The test [_check_coordinated_voting] makes on each buffered vote. *)
Definition in_coordination_window (vote_event v : VoteEvent) : Prop :=
  proposal_id v = proposal_id vote_event
  ∧ event_time vote_event - event_time v < timedelta_seconds 300.

Global Instance in_coordination_window_dec vote_event v :
  Decision (in_coordination_window vote_event v).
Proof. unfold in_coordination_window. apply _. Defined.

(** A window that trails the current vote: not older than 300 seconds and
    not later than the vote itself. *)
Definition in_trailing_window (vote_event v : VoteEvent) : Prop :=
  proposal_id v = proposal_id vote_event
  ∧ 0 <= event_time vote_event - event_time v < timedelta_seconds 300.

Global Instance in_trailing_window_dec vote_event v :
  Decision (in_trailing_window vote_event v).
Proof. unfold in_trailing_window. apply _. Defined.

Definition shares_support (vote_event v : VoteEvent) : Prop :=
  support v = support vote_event.

Global Instance shares_support_dec vote_event v : Decision (shares_support vote_event v).
Proof. unfold shares_support. apply _. Defined.

(** The alerts a call of [check_voting_anomaly] appends. *)
Definition new_alerts (now : datetime) (vote_event : VoteEvent) (d : AnomalyDetector)
    : list Alert :=
  drop (length (alerts d)) (alerts (fst (check_voting_anomaly now vote_event d))).

Definition coordinated_alert_created (now : datetime) (vote_event : VoteEvent)
    (d : AnomalyDetector) : Prop :=
  ∃ a, a ∈ new_alerts now vote_event d
       ∧ alert_type a = "coordinated_voting" ∧ severity a = "high".

(** The last [n] items of a list, in order. *)
Definition last_n {A} (n : nat) (l : list A) : list A := drop (length l - n) l.

Definition large_vote_alerts (now : datetime) (vote_event : VoteEvent) : list Alert :=
  if large_vote_threshold <? voting_power vote_event then
    [make_alert now "large_vote" vote_event (LargeVoteDetected (voting_power vote_event))]
  else [].

Definition rapid_voting_alerts (now : datetime) (vote_event : VoteEvent)
    (window : list VoteEvent) : list Alert :=
  if (1 <? length window)%nat then
    match window !! (length window - 2)%nat with
    | Some prev =>
        let time_diff := total_seconds (event_time vote_event - event_time prev) in
        if Qltb time_diff rapid_voting_threshold then
          [make_alert now "rapid_voting" vote_event (RapidVotingDetected time_diff)]
        else []
    | None => []
    end
  else [].

Definition coordinated_voting_alerts (now : datetime) (vote_event : VoteEvent)
    (window : list VoteEvent) : list Alert :=
  let rsp := recent_same_proposal vote_event window in
  if (5 <? length rsp)%nat
     && Qltb suspicious_pattern_threshold
             (inject_Z (Z.of_nat (same_support vote_event rsp))
              / inject_Z (Z.of_nat (length rsp)))
  then [make_alert now "coordinated_voting" vote_event
          (PotentialCoordinatedVoting (same_support vote_event rsp) (length rsp))]
  else [].

(** Everything one vote fires, given the window that already holds it. *)
Definition fired_alerts (now : datetime) (vote_event : VoteEvent)
    (window : list VoteEvent) : list Alert :=
  large_vote_alerts now vote_event
  ++ rapid_voting_alerts now vote_event window
  ++ coordinated_voting_alerts now vote_event window.

Definition alert_log (l : list Alert) : list LogRecord :=
  map (fun a => logger_warning (AnomalyDetected (alert_message a))) l.

(** ** Sample inputs *)

Definition vote_at (pid : Z) (who : string) (sup : bool) (power seconds : Z) : VoteEvent :=
  {| proposal_id := pid;
     voter := who;
     support := sup;
     voting_power := power;
     reason := "";
     event_time := timedelta_seconds seconds;
     chain := ETHEREUM |}.

(** Five votes on proposal 1, a minute apart; the first one carries the
    given support flag, the others are in favour.  [sixth_vote] follows
    them inside five minutes of the first. *)
Definition six_votes (first_support : bool) : list (datetime * VoteEvent) :=
  [ (0, vote_at 1 "0x01" first_support 10 0);
    (0, vote_at 1 "0x02" true 10 60);
    (0, vote_at 1 "0x03" true 10 120);
    (0, vote_at 1 "0x04" true 10 180);
    (0, vote_at 1 "0x05" true 10 240) ].

Definition sixth_vote : VoteEvent := vote_at 1 "0x06" true 10 299.



Definition unknown_proposal_vote : VoteEvent := vote_at 7 "0xA" true 1 0.

Definition sample_proposal : ProposalEvent :=
  {| pe_proposal_id := 1; pe_proposer := "0xP"; pe_title := "Unknown";
     pe_description := "d"; pe_start_block := 1; pe_end_block := 2;
     pe_quorum := 0; pe_event_time := 0; pe_chain := ETHEREUM |}.

(** An alert raised at the epoch, and a cleanup run exactly seven days
    later. *)
Definition week_old_alert : Alert :=
  make_alert 0 "large_vote" (vote_at 1 "0x01" true 100001 0) (LargeVoteDetected 100001).

Definition monitor_with_alerts (l : list Alert) : BlockchainMonitor :=
  {| chains := ∅;
     event_processor :=
       {| event_history := ∅; voting_patterns := ∅; proposal_analytics := ∅;
          anomaly_detector := {| recent_votes := []; alerts := l |} |};
     contracts := ∅;
     running := true;
     event_queue := [] |}.

(** The alerts of a monitor. *)
Definition monitor_alerts (self : BlockchainMonitor) : list Alert :=
  alerts (anomaly_detector (event_processor self)).

(** A provider that reports head 12 and fails every block fetch, and a
    monitor whose Ethereum cursor stands at block 10. *)
Definition failing_provider : Web3 :=
  {| eth_block_number := Some 12;
     eth_get_block := fun _ => None;
     eth_get_transaction_receipt := fun _ => None |}.

Definition monitor_at_block_10 : BlockchainMonitor :=
  {| chains := {[ ETHEREUM := {| web3 := failing_provider; block_time := 12;
                                 last_block := 10 |} ]};
     event_processor := EventProcessor_init;
     contracts := ∅;
     running := true;
     event_queue := [] |}.

(** ** Vocabulary of the detector's invariants *)


(** ** Vocabulary of the aggregates' invariants *)

(** The velocity samples a run of votes on one proposal appends, starting
    from a given voter set. *)
Fixpoint samples_from (voters : gset string) (votes : list VoteEvent) : list VelocitySample :=
  match votes with
  | [] => []
  | e :: rest =>
      let voters' := voters ∪ {[voter e]} in
      {| vs_timestamp := event_time e; cumulative_votes := size voters' |}
      :: samples_from voters' rest
  end.

(** The votes of a stream cast by one address, in arrival order. *)
Definition votes_by (address : string) (events : list (datetime * VoteEvent))
    : list VoteEvent :=
  filter (fun e => voter e = address) (map snd events).

(** The number of votes of a list that fall in a calendar month. *)
Definition votes_in_month (strftime_Ym : datetime -> string) (month : string)
    (votes : list VoteRecord) : nat :=
  length (filter (fun v => strftime_Ym (vr_timestamp v) = month) votes).

(** What the counting loop of [_find_most_active_period] maintains: one
    entry per month seen so far, holding the number of votes seen in it. *)
Definition counts_agree (strftime_Ym : datetime -> string)
    (counts : list (string * nat)) (seen : list VoteRecord) : Prop :=
  NoDup (map fst counts)
  ∧ (∀ k n, (k, n) ∈ counts -> n = votes_in_month strftime_Ym k seen)
  ∧ (∀ v, v ∈ seen -> strftime_Ym (vr_timestamp v) ∈ map fst counts)
  ∧ (∀ k, k ∈ map fst counts -> ∃ v, v ∈ seen ∧ strftime_Ym (vr_timestamp v) = k).

(** ** What a scan decodes

    The events a log, a receipt, a transaction, a block and a run of blocks
    yield, read off the provider's answers and the registry alone. *)





(** ** Chain configuration and registration *)

Record Config := {
  rpc_url : string;
  ws_url : string;
  chain_id : Z;
  config_block_time : Z;
  gas_multiplier : Q
}.

Definition ETHEREUM_CONFIG : Config :=
  {| rpc_url := "https://eth-mainnet.g.alchemy.com/v2/your-api-key";
     ws_url := "wss://eth-mainnet.g.alchemy.com/v2/your-api-key";
     chain_id := 1; config_block_time := 12; gas_multiplier := 11 # 10 |}.

Definition POLYGON_CONFIG : Config :=
  {| rpc_url := "https://polygon-mainnet.g.alchemy.com/v2/your-api-key";
     ws_url := "wss://polygon-mainnet.g.alchemy.com/v2/your-api-key";
     chain_id := 137; config_block_time := 2; gas_multiplier := 12 # 10 |}.

Definition ARBITRUM_CONFIG : Config :=
  {| rpc_url := "https://arb-mainnet.g.alchemy.com/v2/your-api-key";
     ws_url := "wss://arb-mainnet.g.alchemy.com/v2/your-api-key";
     chain_id := 42161; config_block_time := 1; gas_multiplier := 1 |}.

Definition CONFIGS : gmap ChainType Config :=
  {[ ETHEREUM := ETHEREUM_CONFIG; POLYGON := POLYGON_CONFIG; ARBITRUM := ARBITRUM_CONFIG ]}.

(** [cls.CONFIGS.get(chain, cls.CONFIGS[ChainType.ETHEREUM])] *)
Definition get_config (chain : ChainType) : Config :=
  default ETHEREUM_CONFIG (CONFIGS !! chain).

(** The INFO lines of the two registration methods. *)
Inductive RegistryLogMessage :=
  | InitializedConnection (chain_name : string)
  | AddedContract (contract_type address chain_name : string).

Section Registration.

(** [Web3(Web3.HTTPProvider(url))], with the proof-of-authority middleware
    injected when the flag is set. *)
Variable connect : string -> bool -> Web3.

(** The ABI handed to [add_contract], [to_checksum_address], which raises on
    a malformed address, and [w3.eth.contract(address=..., abi=...)], whose
    result decodes logs. *)
Variable ABI : Type.
Variable to_checksum_address : string -> option string.
Variable eth_contract :
  Web3 -> string -> ABI -> option (Log -> option (string * gmap string PyValue)).

Definition is_poa_chain (chain : ChainType) : bool :=
  match chain with POLYGON | BSC => true | _ => false end.

Definition initialize_chain (chain : ChainType) (self : BlockchainMonitor)
    : BlockchainMonitor :=
  let config := get_config chain in
  set_chains
    (<[chain := {| web3 := connect (rpc_url config) (is_poa_chain chain);
                   block_time := config_block_time config;
                   last_block := 0 |}]> (chains self))
    self.

Definition initialize_chains (chains : list ChainType) (self : BlockchainMonitor)
    : BlockchainMonitor * list RegistryLogMessage :=
  (fold_left (fun self chain => initialize_chain chain self) chains self,
   map (fun chain => InitializedConnection (chain_value chain)) chains).

(** [add_contract]; [None] is a raised exception, before which nothing has
    been stored. *)
Definition add_contract (chain : ChainType) (address : string) (abi : ABI)
    (contract_type : string) (self : BlockchainMonitor)
    : option (BlockchainMonitor * list RegistryLogMessage) :=
  chain_info ← chains self !! chain;
  checksummed ← to_checksum_address address;
  contract ← eth_contract (web3 chain_info) checksummed abi;
  Some ({| chains := chains self;
           event_processor := event_processor self;
           contracts :=
             <[contract_key chain address :=
                 {| contract := contract; ci_chain := chain;
                    ci_type := contract_type; ci_address := address |}]>
               (contracts self);
           running := running self;
           event_queue := event_queue self |},
        [AddedContract contract_type address (chain_value chain)]).

End Registration.

(** ** Statistics *)

(** The dict of [get_realtime_stats]; the chain keys are given as a set and
    [uptime] as the clock reading it formats. *)
Record RealtimeStats := {
  total_proposals_monitored : nat;
  stats_unique_voters : nat;
  active_alerts : nat;
  chains_monitored : gset ChainType;
  contracts_monitored : nat;
  uptime : datetime
}.

(** [get_realtime_stats], with [now] for [datetime.now()].  Reading
    [event_history['proposals']] creates the key in the [defaultdict]. *)
Definition get_realtime_stats (now : datetime) (self : BlockchainMonitor)
    : RealtimeStats * BlockchainMonitor :=
  let ep := event_processor self in
  let proposals := default [] (event_history ep !! "proposals") in
  ({| total_proposals_monitored := length proposals;
      stats_unique_voters := size (voting_patterns ep);
      active_alerts :=
        length (List.filter
                  (fun alert => Qltb (total_seconds (now - timestamp alert)) (inject_Z 3600))
                  (alerts (anomaly_detector ep)));
      chains_monitored := dom (chains self);
      contracts_monitored := size (contracts self);
      uptime := now |},
   set_event_processor
     {| event_history := <["proposals" := proposals]> (event_history ep);
        voting_patterns := voting_patterns ep;
        proposal_analytics := proposal_analytics ep;
        anomaly_detector := anomaly_detector ep |} self).

(** The consumer run for as many iterations as there are clock readings. *)
Fixpoint run_consumer (nows : list datetime) (self : BlockchainMonitor) : BlockchainMonitor :=
  match nows with
  | [] => self
  | now :: rest => run_consumer rest (fst (_process_events now self))
  end.

Definition BlockchainMonitor_init : BlockchainMonitor :=
  {| chains := ∅;
     event_processor := EventProcessor_init;
     contracts := ∅;
     running := false;
     event_queue := [] |}.

(** The order of the counting loop's keys: of two keys, the one listed
    first has a vote that precedes every vote of the other. *)
Definition keys_in_first_seen_order (strftime_Ym : datetime -> string)
    (keys : list string) (seen : list VoteRecord) : Prop :=
  ∀ i j k k', (i < j)%nat -> keys !! i = Some k -> keys !! j = Some k' ->
    ∃ pre v post, seen = pre ++ v :: post
                  ∧ strftime_Ym (vr_timestamp v) = k
                  ∧ ∀ u, u ∈ pre -> strftime_Ym (vr_timestamp u) <> k'.

(** A calendar with two months, split at timestamp 100. *)
Definition two_month_calendar (t : datetime) : string :=
  if t <? 100 then "1970-01" else "1970-02".

Definition vote_record_at (t : datetime) : VoteRecord :=
  {| vr_proposal_id := 1; vr_support := true; vr_power := 1; vr_timestamp := t |}.

(** * Properties *)

(** ** Arithmetic of the thresholds *)

Lemma Qltb_total_seconds (d n : Z) :
  Qltb (total_seconds d) (inject_Z n) = (d <? n * 1000000).
Proof.
  unfold Qltb, total_seconds, Qle_bool, inject_Z. cbn [Qnum Qden].
  destruct (Z.leb_spec (n * 1000000) (d * 1)), (Z.ltb_spec d (n * 1000000)); simpl; lia.
Qed.



(** ** The bounded window *)

Lemma deque_append_last_n {A} (n : nat) (x : A) (l : list A) :
  (0 < n)%nat -> deque_append n x (last_n n l) = last_n n (l ++ [x]).
Proof.
  intros Hn. unfold deque_append, last_n.
  rewrite length_drop, length_app. simpl.
  destruct (Nat.leb_spec n (length l - (length l - n))) as [Hfull | Hroom].
  - rewrite drop_drop.
    replace (length l + 1 - n)%nat with (length l - n + 1)%nat by lia.
    rewrite drop_app_le by lia. reflexivity.
  - replace (length l - n)%nat with 0%nat by lia.
    replace (length l + 1 - n)%nat with 0%nat by lia.
    reflexivity.
Qed.

Lemma last_n_short {A} (n : nat) (l : list A) : (length l <= n)%nat -> last_n n l = l.
Proof. intros H. unfold last_n. replace (length l - n)%nat with 0%nat by lia. reflexivity. Qed.

Lemma last_n_length {A} (n : nat) (l : list A) : (length (last_n n l) <= n)%nat.
Proof. unfold last_n. rewrite length_drop. lia. Qed.

(** ** What one call of the detector does *)

Lemma check_voting_anomaly_eq now vote_event d :
  let window := deque_append recent_votes_maxlen vote_event (recent_votes d) in
  check_voting_anomaly now vote_event d
  = ({| recent_votes := window;
        alerts := alerts d ++ fired_alerts now vote_event window |},
     alert_log (fired_alerts now vote_event window)).
Proof.
  intros window. unfold check_voting_anomaly, fired_alerts. fold window.
  unfold check_large_vote, large_vote_alerts.
  destruct (large_vote_threshold <? voting_power vote_event);
    unfold _create_alert, check_rapid_voting, rapid_voting_alerts; cbn [recent_votes alerts];
    fold (make_alert now "large_vote" vote_event (LargeVoteDetected (voting_power vote_event)));
    (destruct (1 <? length window)%nat;
     [ destruct (window !! (length window - 2)%nat) as [prev|];
       [ destruct (Qltb (total_seconds (event_time vote_event - event_time prev))
                        rapid_voting_threshold) | ] | ]);
    unfold _check_coordinated_voting, coordinated_voting_alerts, _create_alert;
    cbn [recent_votes alerts];
    (destruct (5 <? length (recent_same_proposal vote_event window))%nat;
     [ destruct (Qltb suspicious_pattern_threshold _) | ]);
    cbn [andb app alert_log map alert_message make_alert];
    rewrite ?app_nil_r, <- ?app_assoc; reflexivity.
Qed.

Lemma check_voting_anomaly_recent_votes now vote_event d :
  recent_votes (fst (check_voting_anomaly now vote_event d))
  = deque_append recent_votes_maxlen vote_event (recent_votes d).
Proof. rewrite check_voting_anomaly_eq. reflexivity. Qed.

Lemma new_alerts_eq now vote_event d :
  new_alerts now vote_event d
  = fired_alerts now vote_event
      (deque_append recent_votes_maxlen vote_event (recent_votes d)).
Proof.
  unfold new_alerts. rewrite check_voting_anomaly_eq. cbn [fst alerts].
  rewrite drop_app_length. reflexivity.
Qed.

Lemma filter_bool_Prop {A} (f : A -> bool) (P : A -> Prop) `{!∀ x, Decision (P x)}
    (l : list A) :
  (∀ x, f x = true <-> P x) -> List.filter f l = filter P l.
Proof.
  intros Hf. induction l as [|x l IH]; [reflexivity|].
  simpl. rewrite filter_cons, IH.
  destruct (f x) eqn:E, (decide (P x)) as [HP|HP]; try reflexivity.
  - exfalso. apply HP, Hf, E.
  - apply Hf in HP. congruence.
Qed.



Lemma elem_of_deque_append {A} (n : nat) (x : A) (d : list A) :
  (0 < n)%nat -> x ∈ deque_append n x d.
Proof.
  intros _. unfold deque_append.
  destruct (n <=? length d)%nat; apply elem_of_app; right; apply list_elem_of_singleton;
    reflexivity.
Qed.

(** The coordinated-voting alert is the only fired alert of its type. *)
Lemma coordinated_alert_created_iff now vote_event d :
  coordinated_alert_created now vote_event d
  <-> coordinated_voting_alerts now vote_event
        (deque_append recent_votes_maxlen vote_event (recent_votes d)) <> [].
Proof.
  unfold coordinated_alert_created. rewrite new_alerts_eq.
  set (window := deque_append _ _ _). unfold fired_alerts. split.
  - intros (a & Hin & Hty & _) Hnil. rewrite Hnil, app_nil_r in Hin.
    apply elem_of_app in Hin as [Hin | Hin].
    + unfold large_vote_alerts in Hin.
      destruct (large_vote_threshold <? _); [|inversion Hin].
      apply list_elem_of_singleton in Hin. subst a. discriminate Hty.
    + unfold rapid_voting_alerts in Hin.
      destruct (1 <? length window)%nat; [|inversion Hin].
      destruct (window !! _); [|inversion Hin].
      destruct (Qltb _ _); [|inversion Hin].
      apply list_elem_of_singleton in Hin. subst a. discriminate Hty.
  - intros Hne. unfold coordinated_voting_alerts in *.
    destruct (_ && _); [|congruence].
    eexists. split.
    + rewrite !elem_of_app. right. right. apply list_elem_of_singleton. reflexivity.
    + split; reflexivity.
Qed.



(** ** The recent-vote window (C6) *)

Lemma feed_detector_snoc events e d :
  feed_detector (events ++ [e]) d
  = fst (check_voting_anomaly (fst e) (snd e) (feed_detector events d)).
Proof. unfold feed_detector. rewrite fold_left_app. reflexivity. Qed.

Lemma feed_detector_recent_votes events d :
  (length (recent_votes d) <= recent_votes_maxlen)%nat ->
  recent_votes (feed_detector events d)
  = last_n recent_votes_maxlen (recent_votes d ++ map snd events).
Proof.
  intros Hd. induction events as [|e events IH] using rev_ind.
  - simpl. rewrite app_nil_r, last_n_short; [reflexivity | exact Hd].
  - rewrite feed_detector_snoc, check_voting_anomaly_recent_votes, IH.
    rewrite map_app, app_assoc. simpl.
    apply deque_append_last_n. unfold recent_votes_maxlen. lia.
Qed.

(** C6. Fed any sequence of votes, the detector's window holds at most 100
    entries and equals the last 100 votes of the sequence in arrival order;
    after 100+k votes it is the sequence without its first k. *)
Theorem recent_vote_window_fifo (events : list (datetime * VoteEvent)) :
  let window := recent_votes (feed_detector events AnomalyDetector_init) in
  (length window <= 100)%nat
  ∧ window = last_n 100 (map snd events)
  ∧ ∀ k : nat, length events = (100 + k)%nat ->
      window = drop k (map snd events) ∧ length window = 100%nat.
Proof.
  intros window.
  assert (Hw : window = last_n 100 (map snd events)).
  { unfold window. rewrite feed_detector_recent_votes; [reflexivity | simpl; lia]. }
  split; [rewrite Hw; apply last_n_length|].
  split; [exact Hw|].
  intros k Hk. rewrite Hw. unfold last_n. rewrite length_drop, length_map, Hk.
  replace (100 + k - 100)%nat with k by lia. split; [reflexivity | lia].
Qed.

(** ** Coordinated voting (C4) *)



(** On a stream whose buffered timestamps do not exceed the arriving
    vote's, the code's window is the trailing one. *)
Lemma coordination_window_trailing vote_event window :
  Forall (fun v => event_time v <= event_time vote_event) window ->
  filter (in_coordination_window vote_event) window
  = filter (in_trailing_window vote_event) window.
Proof.
  intros Hord. induction Hord as [|v l Hv _ IH]; [reflexivity|].
  rewrite !filter_cons, IH.
  destruct (decide (in_coordination_window vote_event v)) as [Hc|Hc],
           (decide (in_trailing_window vote_event v)) as [Ht|Ht]; try reflexivity.
  - exfalso. apply Ht. destruct Hc. split; [assumption | lia].
  - exfalso. apply Hc. destruct Ht as [? [_ ?]]. split; assumption.
Qed.

(** The two scenarios of the specification, run on the detector. *)
Example six_agreeing_votes_fire :
  let d := feed_detector (six_votes true) AnomalyDetector_init in
  Forall (fun a => alert_type a <> "coordinated_voting") (alerts d)
  ∧ coordinated_alert_created 0 sixth_vote d.
Proof.
  split.
  - vm_compute. repeat constructor; discriminate.
  - apply coordinated_alert_created_iff. vm_compute. discriminate.
Qed.

Example five_of_six_agreeing_do_not_fire :
  ¬ coordinated_alert_created 0 sixth_vote
      (feed_detector (six_votes false) AnomalyDetector_init).
Proof.
  rewrite coordinated_alert_created_iff. vm_compute. intros H. apply H. reflexivity.
Qed.

(** ** Aggregation of votes (C1, C7) *)

Lemma process_vote_event_eq now event self :
  process_vote_event now event self
  = ({| event_history := event_history self;
        voting_patterns := update_voting_patterns event (voting_patterns self);
        proposal_analytics :=
          match proposal_analytics self !! proposal_id event with
          | Some analytics =>
              <[proposal_id event := update_analytics event analytics]>
                (proposal_analytics self)
          | None => proposal_analytics self
          end;
        anomaly_detector := fst (check_voting_anomaly now event (anomaly_detector self)) |},
     logger_info (ProcessingVote (proposal_id event) (voter event))
     :: snd (check_voting_anomaly now event (anomaly_detector self))).
Proof.
  unfold process_vote_event.
  destruct (check_voting_anomaly now event (anomaly_detector self)). reflexivity.
Qed.

(** The entry of [pid] after one vote: updated when the vote is on [pid],
    untouched otherwise. *)
Lemma process_vote_event_lookup now event self pid a :
  proposal_analytics self !! pid = Some a ->
  proposal_analytics (fst (process_vote_event now event self)) !! pid
  = Some (if proposal_id event =? pid then update_analytics event a else a).
Proof.
  intros Ha. rewrite process_vote_event_eq. cbn [fst proposal_analytics].
  destruct (Z.eqb_spec (proposal_id event) pid) as [-> | Hne].
  - rewrite Ha. apply lookup_insert_eq.
  - destruct (proposal_analytics self !! proposal_id event); [|exact Ha].
    rewrite lookup_insert_ne by exact Hne. exact Ha.
Qed.

Lemma process_vote_events_lookup events : ∀ self pid a,
  proposal_analytics self !! pid = Some a ->
  ∃ a', proposal_analytics (fst (process_vote_events events self)) !! pid = Some a'
        ∧ votes_for a' + votes_against a'
          = votes_for a + votes_against a + Zsum (map voting_power (votes_on pid events))
        ∧ unique_voters a'
          = unique_voters a ∪ list_to_set (map voter (votes_on pid events)).
Proof.
  induction events as [|[now event] events IH]; intros self pid a Ha.
  - exists a. simpl. split; [exact Ha|]. split; [lia | set_solver].
  - simpl. destruct (process_vote_event now event self) as [self1 log1] eqn:E1.
    destruct (process_vote_events events self1) as [self2 log2] eqn:E2.
    pose proof (process_vote_event_lookup now event self pid a Ha) as H1.
    rewrite E1 in H1. cbn [fst] in H1.
    destruct (IH self1 pid _ H1) as (a' & Hlook & Hsum & Hset).
    rewrite E2 in Hlook. cbn [fst] in *.
    exists a'. split; [exact Hlook|].
    unfold votes_on in *. cbn [map snd List.filter].
    destruct (proposal_id event =? pid); cbn [map Zsum fold_right] in *.
    + unfold update_analytics in Hsum, Hset. cbn in Hsum, Hset. unfold Zsum in *.
      split; [destruct (support event); lia|].
      rewrite Hset. set_solver.
    + split; assumption.
Qed.

Lemma size_list_to_set_remove_dups (l : list string) :
  size (list_to_set l : gset string) = length (remove_dups l).
Proof.
  rewrite <- (size_list_to_set (C := gset string) (remove_dups l))
    by apply NoDup_remove_dups.
  f_equal. apply set_eq. intros x.
  rewrite !elem_of_list_to_set, elem_of_remove_dups. reflexivity.
Qed.

(** C1. After ProposalCreated for an id, whatever votes are then processed,
    the snapshot of that id has [votes_for + votes_against] equal to the sum
    of the voting powers of the votes cast on it and a unique-voter count
    equal to the number of distinct voter addresses among them. *)
Theorem vote_totals_and_unique_voters (self : EventProcessor) (created : ProposalEvent)
    (events : list (datetime * VoteEvent)) :
  let pid := pe_proposal_id created in
  let self1 := fst (process_proposal_event created self) in
  let self2 := fst (process_vote_events events self1) in
  ∃ snapshot,
    get_proposal_analytics self2 pid = Some snapshot
    ∧ snap_votes_for snapshot + snap_votes_against snapshot
      = Zsum (map voting_power (votes_on pid events))
    ∧ snap_unique_voters snapshot
      = length (remove_dups (map voter (votes_on pid events))).
Proof.
  intros pid self1 self2.
  assert (H1 : proposal_analytics self1 !! pid = Some (new_analytics created))
    by apply lookup_insert_eq.
  destruct (process_vote_events_lookup events self1 pid _ H1) as (a' & Hlook & Hsum & Hset).
  fold self2 in Hlook. unfold get_proposal_analytics. rewrite Hlook.
  eexists. split; [reflexivity|]. cbn.
  split; [rewrite Hsum; cbn; lia|].
  rewrite Hset. cbn. rewrite (left_id_L ∅ (∪)). apply size_list_to_set_remove_dups.
Qed.

(** The end-to-end scenario of the specification. *)
Example end_to_end_scenario :
  let created := sample_proposal in
  let self1 := fst (process_proposal_event created EventProcessor_init) in
  let self2 :=
    fst (process_vote_events [ (0, vote_at 1 "X" true 500 10);
                               (0, vote_at 1 "Y" false 300 20) ] self1) in
  (λ s, (snap_votes_for s, snap_votes_against s, snap_unique_voters s))
    <$> get_proposal_analytics self2 1
  = Some (500, 300, 2%nat).
Proof. vm_compute. reflexivity. Qed.

(** C7. Processing one VoteCast twice on an existing proposal adds its
    voting power to the for/against tally both times, and the second
    processing leaves the unique-voter count as the first left it. *)
Theorem replayed_vote_double_counts (now1 now2 : datetime) (event : VoteEvent)
    (self : EventProcessor) (a : Analytics) :
  proposal_analytics self !! proposal_id event = Some a ->
  let self1 := fst (process_vote_event now1 event self) in
  let self2 := fst (process_vote_event now2 event self1) in
  ∃ s1 s2,
    get_proposal_analytics self1 (proposal_id event) = Some s1
    ∧ get_proposal_analytics self2 (proposal_id event) = Some s2
    ∧ snap_votes_for s1
      = votes_for a + (if support event then voting_power event else 0)
    ∧ snap_votes_against s1
      = votes_against a + (if support event then 0 else voting_power event)
    ∧ snap_votes_for s2
      = snap_votes_for s1 + (if support event then voting_power event else 0)
    ∧ snap_votes_against s2
      = snap_votes_against s1 + (if support event then 0 else voting_power event)
    ∧ snap_votes_for s2 + snap_votes_against s2
      = votes_for a + votes_against a + 2 * voting_power event
    ∧ snap_unique_voters s2 = snap_unique_voters s1.
Proof.
  intros Ha self1 self2.
  pose proof (process_vote_event_lookup now1 event self _ a Ha) as H1.
  fold self1 in H1. rewrite Z.eqb_refl in H1.
  pose proof (process_vote_event_lookup now2 event self1 _ _ H1) as H2.
  fold self2 in H2. rewrite Z.eqb_refl in H2.
  unfold get_proposal_analytics. rewrite H1, H2.
  eexists. eexists. split; [reflexivity|]. split; [reflexivity|].
  cbn. repeat split; try (destruct (support event); lia).
  f_equal. set_solver.
Qed.

Lemma replayed_vote_double_counts_witness :
  let created := sample_proposal in
  let self := fst (process_proposal_event created EventProcessor_init) in
  let event := vote_at 1 "X" true 500 10 in
  let self1 := fst (process_vote_event 0 event self) in
  let self2 := fst (process_vote_event 0 event self1) in
  proposal_analytics self !! 1 = Some (new_analytics created)
  ∧ ∃ s1 s2,
      get_proposal_analytics self1 1 = Some s1
      ∧ get_proposal_analytics self2 1 = Some s2
      ∧ snap_votes_for s1 = 0 + 500
      ∧ snap_votes_against s1 = 0 + 0
      ∧ snap_votes_for s2 = snap_votes_for s1 + 500
      ∧ snap_votes_against s2 = snap_votes_against s1 + 0
      ∧ snap_votes_for s2 + snap_votes_against s2 = 0 + 0 + 2 * 500
      ∧ snap_unique_voters s2 = snap_unique_voters s1.
Proof.
  intros created self event self1 self2.
  assert (H : proposal_analytics self !! proposal_id event = Some (new_analytics created))
    by (vm_compute; reflexivity).
  split; [exact H|].
  exact (replayed_vote_double_counts 0 0 event self (new_analytics created) H).
Defined.

(** ** Votes on unknown proposals (C2, C10) *)

Lemma votes_of_update_voting_patterns event patterns address :
  default [] (default ∅ (update_voting_patterns event patterns !! address) !! "votes")
  = if decide (voter event = address)
    then default [] (default ∅ (patterns !! address) !! "votes") ++ [vote_record event]
    else default [] (default ∅ (patterns !! address) !! "votes").
Proof.
  unfold update_voting_patterns. destruct (decide (voter event = address)) as [-> | Hne].
  - rewrite lookup_insert_eq. cbn [from_option id]. rewrite lookup_insert_eq. reflexivity.
  - rewrite lookup_insert_ne by exact Hne. reflexivity.
Qed.

Lemma votes_of_process_vote_event now event self :
  votes_of (fst (process_vote_event now event self)) (voter event)
  = votes_of self (voter event) ++ [vote_record event].
Proof.
  rewrite process_vote_event_eq. unfold votes_of. cbn [fst voting_patterns].
  rewrite votes_of_update_voting_patterns. rewrite decide_True by reflexivity. reflexivity.
Qed.

(** The vote is handed to the processor whenever its fields are decoded: the
    handler then raises nothing. *)
Lemma handle_vote_cast now event ep pid who flag weight :
  be_event_type event = VOTE_CAST ->
  data_int (data event) "proposalId" = Some pid ->
  data_str (data event) "voter" = Some who ->
  data event !! "support" = Some flag ->
  data_int (data event) "weight" = Some weight ->
  _handle_blockchain_event now event ep
  = Some (process_vote_event now
            {| proposal_id := pid; voter := who; support := py_bool flag;
               voting_power := weight;
               reason := default "" (data_str (data event) "reason");
               event_time := be_timestamp event; chain := be_chain event |} ep).
Proof.
  intros Hty Hpid Hwho Hflag Hweight. unfold _handle_blockchain_event.
  rewrite Hty, Hpid, Hwho, Hflag, Hweight. reflexivity.
Qed.

(** C2 (amended). A VoteCast on a proposal id without an analytics entry
    leaves the proposal analytics and the proposal history as they were and
    returns normally.  It is not dropped altogether: the vote is appended to
    the voter's profile and enters the detector's window.  No warning is
    logged for the unknown id: the lines logged are the INFO line of the
    vote followed by one WARNING per anomaly alert the vote fires. *)
Theorem vote_for_unknown_proposal (now : datetime) (event : VoteEvent)
    (self : EventProcessor) :
  proposal_analytics self !! proposal_id event = None ->
  let result := process_vote_event now event self in
  let fired := new_alerts now event (anomaly_detector self) in
  proposal_analytics (fst result) = proposal_analytics self
  ∧ event_history (fst result) = event_history self
  ∧ votes_of (fst result) (voter event) = votes_of self (voter event) ++ [vote_record event]
  ∧ recent_votes (anomaly_detector (fst result))
    = deque_append recent_votes_maxlen event (recent_votes (anomaly_detector self))
  ∧ snd result
    = logger_info (ProcessingVote (proposal_id event) (voter event)) :: alert_log fired
  ∧ List.filter is_warning (snd result) = alert_log fired.
Proof.
  intros Hnone result fired.
  split; [|split; [|split; [|split; [|split]]]].
  - unfold result. rewrite process_vote_event_eq. cbn [fst proposal_analytics].
    rewrite Hnone. reflexivity.
  - unfold result. rewrite process_vote_event_eq. reflexivity.
  - apply votes_of_process_vote_event.
  - unfold result. rewrite process_vote_event_eq. cbn [fst anomaly_detector].
    apply check_voting_anomaly_recent_votes.
  - unfold result, fired. rewrite process_vote_event_eq, new_alerts_eq.
    rewrite check_voting_anomaly_eq. reflexivity.
  - unfold result, fired. rewrite process_vote_event_eq, new_alerts_eq.
    rewrite check_voting_anomaly_eq. cbn [snd List.filter is_warning logger_info level].
    generalize (fired_alerts now event
                  (deque_append recent_votes_maxlen event
                     (recent_votes (anomaly_detector self)))).
    intros l. induction l as [|x l IH]; [reflexivity|].
    cbn. f_equal. exact IH.
Qed.

Lemma vote_for_unknown_proposal_witness :
  let result := process_vote_event 0 unknown_proposal_vote EventProcessor_init in
  proposal_analytics EventProcessor_init !! 7 = None
  ∧ proposal_analytics (fst result) = ∅
  ∧ event_history (fst result) = ∅
  ∧ votes_of (fst result) "0xA" = [] ++ [vote_record unknown_proposal_vote]
  ∧ recent_votes (anomaly_detector (fst result))
    = deque_append recent_votes_maxlen unknown_proposal_vote []
  ∧ snd result
    = logger_info (ProcessingVote 7 "0xA")
      :: alert_log (new_alerts 0 unknown_proposal_vote AnomalyDetector_init)
  ∧ List.filter is_warning (snd result)
    = alert_log (new_alerts 0 unknown_proposal_vote AnomalyDetector_init).
Proof.
  intros result. split; [reflexivity|].
  exact (vote_for_unknown_proposal 0 unknown_proposal_vote EventProcessor_init eq_refl).
Defined.

(** C2, the claim as worded.  A vote on the unknown id 7 changes the
    voter aggregates and the detector window, and no warning is logged. *)
Lemma unknown_proposal_vote_not_dropped :
  let result := process_vote_event 0 unknown_proposal_vote EventProcessor_init in
  proposal_analytics EventProcessor_init !! proposal_id unknown_proposal_vote = None
  ∧ voting_patterns (fst result) <> voting_patterns EventProcessor_init
  ∧ recent_votes (anomaly_detector (fst result))
    <> recent_votes (anomaly_detector EventProcessor_init)
  ∧ Forall (fun r => is_warning r = false) (snd result).
Proof.
  intros result. split; [reflexivity|]. split; [|split].
  - intros H. apply (f_equal (fun m => m !! "0xA")) in H.
    vm_compute in H. discriminate H.
  - vm_compute. discriminate.
  - vm_compute. repeat constructor.
Qed.

Lemma get_voter_profile_votes strftime_Ym self address v vs :
  votes_of self address = v :: vs ->
  get_voter_profile strftime_Ym self address
  = Some {| total_votes := length (v :: vs);
            support_ratio :=
              (inject_Z (Z.of_nat (support_votes (v :: vs)))
               / inject_Z (Z.of_nat (length (v :: vs))))%Q;
            avg_voting_power := np_mean (map (fun v => inject_Z (vr_power v)) (v :: vs));
            first_vote := fold_left Z.min (map vr_timestamp vs) (vr_timestamp v);
            last_vote := fold_left Z.max (map vr_timestamp vs) (vr_timestamp v);
            most_active_period := _find_most_active_period strftime_Ym (v :: vs) |}.
Proof.
  unfold votes_of, get_voter_profile. intros Hvotes.
  destruct (voting_patterns self !! address) as [pattern|]; cbn [from_option id] in Hvotes.
  - rewrite Hvotes. reflexivity.
  - rewrite lookup_empty in Hvotes. discriminate Hvotes.
Qed.

Lemma get_voter_profile_no_votes strftime_Ym self address :
  votes_of self address = [] -> get_voter_profile strftime_Ym self address = None.
Proof.
  unfold votes_of, get_voter_profile. intros Hvotes.
  destruct (voting_patterns self !! address) as [pattern|]; [|reflexivity].
  cbn [from_option id] in Hvotes. rewrite Hvotes. reflexivity.
Qed.

Lemma fired_alerts_proposal_id now event window :
  Forall (fun a => alert_proposal_id a = proposal_id event) (fired_alerts now event window).
Proof.
  unfold fired_alerts, large_vote_alerts, rapid_voting_alerts, coordinated_voting_alerts.
  repeat apply Forall_app_2;
    repeat match goal with
           | |- Forall _ (if ?b then _ else _) => destruct b
           | |- Forall _ (match ?o with Some _ => _ | None => _ end) => destruct o
           | |- Forall _ (let _ := _ in _) => cbv zeta
           end;
    repeat constructor.
Qed.

Lemma support_votes_snoc votes r :
  support_votes (votes ++ [r])
  = (support_votes votes + (if vr_support r then 1 else 0))%nat.
Proof.
  unfold support_votes. rewrite List.filter_app, length_app. simpl.
  destruct (vr_support r); reflexivity.
Qed.

(** C10. A VoteCast on a proposal id without an analytics entry is still
    appended to the voter's profile, so [get_voter_profile] counts it in the
    total, the support ratio and the mean power; it still enters the
    detector's window and the rules are evaluated on it, and the alerts it
    fires carry the proposal id, which stays unknown to the analytics. *)
Theorem unknown_proposal_vote_is_profiled_and_screened
    (strftime_Ym : datetime -> string) (now : datetime) (event : VoteEvent)
    (self : EventProcessor) :
  proposal_analytics self !! proposal_id event = None ->
  let self' := fst (process_vote_event now event self) in
  let earlier := votes_of self (voter event) in
  let votes := earlier ++ [vote_record event] in
  let fired := new_alerts now event (anomaly_detector self) in
  (∃ profile,
      get_voter_profile strftime_Ym self' (voter event) = Some profile
      ∧ total_votes profile = S (length earlier)
      ∧ support_ratio profile
        = (inject_Z (Z.of_nat (support_votes earlier + (if support event then 1 else 0)))
           / inject_Z (Z.of_nat (S (length earlier))))%Q
      ∧ avg_voting_power profile = np_mean (map (fun v => inject_Z (vr_power v)) votes))
  ∧ get_proposal_analytics self' (proposal_id event) = None
  ∧ anomaly_detector self' = fst (check_voting_anomaly now event (anomaly_detector self))
  ∧ event ∈ recent_votes (anomaly_detector self')
  ∧ alerts (anomaly_detector self') = alerts (anomaly_detector self) ++ fired
  ∧ Forall (fun a => alert_proposal_id a = proposal_id event) fired
  ∧ (large_vote_threshold < voting_power event ->
     ∃ a, a ∈ fired ∧ alert_type a = "large_vote"
          ∧ alert_proposal_id a = proposal_id event).
Proof.
  intros Hnone self' earlier votes fired.
  assert (Hdet : anomaly_detector self'
                 = fst (check_voting_anomaly now event (anomaly_detector self))).
  { unfold self'. rewrite process_vote_event_eq. reflexivity. }
  assert (Hfired : fired = fired_alerts now event
                     (deque_append recent_votes_maxlen event
                        (recent_votes (anomaly_detector self))))
    by apply new_alerts_eq.
  split; [|split; [|split; [|split; [|split; [|split]]]]].
  - pose proof (votes_of_process_vote_event now event self) as Hv.
    fold self' earlier in Hv. subst votes.
    destruct (earlier ++ [vote_record event]) as [|v vs] eqn:Ev.
    { apply (f_equal length) in Ev. rewrite length_app in Ev. simpl in Ev. lia. }
    rewrite (get_voter_profile_votes strftime_Ym self' (voter event) v vs Hv).
    eexists. split; [reflexivity|]. cbn [total_votes support_ratio avg_voting_power].
    rewrite <- Ev, support_votes_snoc, length_app.
    cbn [length vote_record vr_support].
    replace (length earlier + 1)%nat with (S (length earlier)) by lia.
    repeat split.
  - unfold get_proposal_analytics, self'. rewrite process_vote_event_eq.
    cbn [fst proposal_analytics]. rewrite !Hnone. reflexivity.
  - exact Hdet.
  - rewrite Hdet, check_voting_anomaly_recent_votes.
    apply elem_of_deque_append. unfold recent_votes_maxlen. lia.
  - rewrite Hdet, Hfired, check_voting_anomaly_eq. reflexivity.
  - rewrite Hfired. apply fired_alerts_proposal_id.
  - intros Hlarge. rewrite Hfired. unfold fired_alerts, large_vote_alerts.
    apply Z.ltb_lt in Hlarge. rewrite Hlarge.
    eexists. split; [apply elem_of_app; left; apply list_elem_of_singleton; reflexivity|].
    split; reflexivity.
Qed.

Lemma unknown_proposal_vote_is_profiled_and_screened_witness :
  let event := vote_at 7 "0xA" true 100001 0 in
  let self' := fst (process_vote_event 0 event EventProcessor_init) in
  proposal_analytics EventProcessor_init !! 7 = None
  ∧ (∃ profile,
        get_voter_profile (fun _ => "1970-01") self' "0xA" = Some profile
        ∧ total_votes profile = 1%nat
        ∧ support_ratio profile = (inject_Z (Z.of_nat 1) / inject_Z (Z.of_nat 1))%Q
        ∧ avg_voting_power profile = np_mean [inject_Z 100001])
  ∧ get_proposal_analytics self' 7 = None
  ∧ anomaly_detector self' = fst (check_voting_anomaly 0 event AnomalyDetector_init)
  ∧ event ∈ recent_votes (anomaly_detector self')
  ∧ alerts (anomaly_detector self') = [] ++ new_alerts 0 event AnomalyDetector_init
  ∧ Forall (fun a => alert_proposal_id a = 7) (new_alerts 0 event AnomalyDetector_init)
  ∧ (large_vote_threshold < 100001 ->
     ∃ a, a ∈ new_alerts 0 event AnomalyDetector_init ∧ alert_type a = "large_vote"
          ∧ alert_proposal_id a = 7).
Proof.
  intros event self'. split; [reflexivity|].
  exact (unknown_proposal_vote_is_profiled_and_screened
           (fun _ => "1970-01") 0 event EventProcessor_init eq_refl).
Defined.

(** ** Accessors on unknown keys (C5) *)

(** C5. [get_proposal_analytics] on an id without an entry and
    [get_voter_profile] on an address without recorded votes return the
    empty result, and only then; both accessors are total, so neither
    raises. *)
Theorem accessors_empty_on_unknown_key (strftime_Ym : datetime -> string)
    (self : EventProcessor) :
  (∀ pid, proposal_analytics self !! pid = None ->
          get_proposal_analytics self pid = None)
  ∧ (∀ address, voting_patterns self !! address = None ->
                get_voter_profile strftime_Ym self address = None)
  ∧ (∀ address, votes_of self address = [] ->
                get_voter_profile strftime_Ym self address = None)
  ∧ (∀ pid, is_Some (proposal_analytics self !! pid) ->
            is_Some (get_proposal_analytics self pid))
  ∧ (∀ address, votes_of self address <> [] ->
                is_Some (get_voter_profile strftime_Ym self address)).
Proof.
  split; [|split; [|split; [|split]]].
  - intros pid H. unfold get_proposal_analytics. rewrite H. reflexivity.
  - intros address H. unfold get_voter_profile. rewrite H. reflexivity.
  - intros address H. apply get_voter_profile_no_votes, H.
  - intros pid [a H]. unfold get_proposal_analytics. rewrite H. eexists. reflexivity.
  - intros address H. destruct (votes_of self address) as [|v vs] eqn:E; [congruence|].
    rewrite (get_voter_profile_votes strftime_Ym self address v vs E). eexists. reflexivity.
Qed.

(** ** Average inter-vote interval (C9) *)

Lemma time_diff_at_shift a velocity k :
  (1 <= k)%nat -> time_diff_at (a :: velocity) (S k) = time_diff_at velocity k.
Proof.
  intros Hk. destruct k as [|k]; [lia|]. unfold time_diff_at.
  replace (S (S k) - 1)%nat with (S k) by lia.
  replace (S k - 1)%nat with k by lia. reflexivity.
Qed.

Lemma omap_time_diff_at_shift a velocity n : ∀ k,
  (1 <= k)%nat ->
  omap (time_diff_at (a :: velocity)) (seq (S k) n)
  = omap (time_diff_at velocity) (seq k n).
Proof.
  induction n as [|n IH]; intros k Hk; [reflexivity|].
  cbn [seq omap list_omap]. rewrite time_diff_at_shift by exact Hk.
  rewrite <- (IH (S k)) by lia. reflexivity.
Qed.

(** The index loop collects the deltas of consecutive timestamps. *)
Lemma time_diffs_consecutive velocity :
  time_diffs velocity = consecutive_deltas (map vs_timestamp velocity).
Proof.
  induction velocity as [|a velocity IH]; [reflexivity|].
  destruct velocity as [|b rest]; [reflexivity|].
  unfold time_diffs in *. cbn [length] in *.
  replace (S (S (length rest)) - 1)%nat with (S (length rest)) by lia.
  replace (S (length rest) - 1)%nat with (length rest) in IH by lia.
  cbn [seq omap list_omap map consecutive_deltas].
  unfold time_diff_at at 1. cbn [lookup list_lookup Nat.sub].
  cbn [option_bind mbind].
  rewrite omap_time_diff_at_shift by lia. rewrite IH. reflexivity.
Qed.

(** C9 (amended). For an id with an entry the snapshot carries the average
    inter-vote interval only when at least one sample exists: with one
    sample it is 0, with two or more it is the mean of the deltas between
    consecutive sample timestamps in seconds.  With no sample the snapshot
    has no such field. *)
Theorem average_voting_interval (self : EventProcessor) (pid : Z) (a : Analytics) :
  proposal_analytics self !! pid = Some a ->
  let stamps := map vs_timestamp (voting_velocity a) in
  ∃ snapshot,
    get_proposal_analytics self pid = Some snapshot
    ∧ avg_voting_interval snapshot
      = match stamps with
        | [] => None
        | [_] => Some 0%Q
        | _ :: _ :: _ => Some (np_mean (consecutive_deltas stamps))
        end.
Proof.
  intros Ha stamps. unfold get_proposal_analytics. rewrite Ha.
  eexists. split; [reflexivity|]. cbn [avg_voting_interval].
  subst stamps. rewrite time_diffs_consecutive.
  destruct (voting_velocity a) as [|x [|y rest]]; reflexivity.
Qed.

Lemma average_voting_interval_witness :
  let self1 := fst (process_proposal_event sample_proposal EventProcessor_init) in
  let self2 :=
    fst (process_vote_events [ (0, vote_at 1 "X" true 500 10);
                               (0, vote_at 1 "Y" false 300 40) ] self1) in
  ∃ a, proposal_analytics self2 !! 1 = Some a
       ∧ ∃ snapshot,
           get_proposal_analytics self2 1 = Some snapshot
           ∧ avg_voting_interval snapshot
             = match map vs_timestamp (voting_velocity a) with
               | [] => None
               | [_] => Some 0%Q
               | _ :: _ :: _ =>
                   Some (np_mean (consecutive_deltas (map vs_timestamp (voting_velocity a))))
               end.
Proof.
  intros self1 self2.
  destruct (proposal_analytics self2 !! 1) as [a|] eqn:E; [|vm_compute in E; discriminate E].
  exists a. split; [reflexivity|].
  exact (average_voting_interval self2 1 a E).
Defined.

(** C9, the claim as worded.  A proposal that has received no vote has
    fewer than two samples, yet its snapshot holds no average interval
    rather than 0. *)
Lemma no_votes_no_average_interval :
  let self1 := fst (process_proposal_event sample_proposal EventProcessor_init) in
  (voting_velocity <$> proposal_analytics self1 !! 1) = Some []
  ∧ (avg_voting_interval <$> get_proposal_analytics self1 1) = Some None
  ∧ (avg_voting_interval <$> get_proposal_analytics self1 1) <> Some (Some 0%Q).
Proof.
  split; [vm_compute; reflexivity|]. split; [vm_compute; reflexivity|].
  vm_compute. discriminate.
Qed.

(** ** Retention of alerts (C8) *)

Lemma cleanup_alerts now self :
  monitor_alerts (fst (fst (_cleanup_old_data now self)))
  = filter (fun a => now - timedelta_days 7 < timestamp a) (monitor_alerts self).
Proof.
  unfold monitor_alerts, _cleanup_old_data. cbn.
  apply filter_bool_Prop. intros a. apply Z.ltb_lt.
Qed.

(** C8 (amended). A cleanup pass keeps exactly the alerts created less than
    7 days before the pass and removes those created 7 days or more before
    it: an alert 8 days old is absent afterwards, one 6 days old remains,
    and one exactly 7 days old is removed.  The survivors keep their
    relative order. *)
Theorem cleanup_keeps_recent_alerts_in_order (now : datetime) (self : BlockchainMonitor) :
  let before := monitor_alerts self in
  let after := monitor_alerts (fst (fst (_cleanup_old_data now self))) in
  after = filter (fun a => now - timestamp a < timedelta_days 7) before
  ∧ after `sublist_of` before
  ∧ (∀ a, a ∈ after <-> a ∈ before ∧ now - timestamp a < timedelta_days 7)
  ∧ (∀ a, now - timestamp a = timedelta_days 8 -> a ∉ after)
  ∧ (∀ a, a ∈ before -> now - timestamp a = timedelta_days 6 -> a ∈ after)
  ∧ (∀ a, now - timestamp a = timedelta_days 7 -> a ∉ after).
Proof.
  intros before after.
  assert (Hafter : after = filter (fun a => now - timestamp a < timedelta_days 7) before).
  { unfold after, before. rewrite cleanup_alerts.
    apply list_filter_iff. intros a. lia. }
  assert (Hin : ∀ a, a ∈ after <-> a ∈ before ∧ now - timestamp a < timedelta_days 7).
  { intros a. rewrite Hafter, list_elem_of_filter. tauto. }
  split; [exact Hafter|]. split; [rewrite Hafter; apply sublist_filter|].
  split; [exact Hin|]. unfold timedelta_days in *.
  split; [|split].
  - intros a H8 Ha. apply Hin in Ha. lia.
  - intros a Ha H6. apply Hin. split; [exact Ha | lia].
  - intros a H7 Ha. apply Hin in Ha. lia.
Qed.

(** C8, the claim as worded.  An alert created exactly 7 days before the
    pass was not created more than 7 days before it, and is removed. *)
Lemma week_old_alert_is_removed :
  let now := timedelta_days 7 in
  let self := monitor_with_alerts [week_old_alert] in
  ¬ (timedelta_days 7 < now - timestamp week_old_alert)
  ∧ week_old_alert ∈ monitor_alerts self
  ∧ monitor_alerts (fst (fst (_cleanup_old_data now self))) = [].
Proof.
  split; [vm_compute; discriminate|]. split; [|vm_compute; reflexivity].
  apply list_elem_of_singleton. reflexivity.
Qed.

(** ** The polling pass and its cursor (C3) *)

Lemma _parse_event_log_chains chain log tx block self :
  chains (_parse_event_log chain log tx block self) = chains self.
Proof.
  unfold _parse_event_log.
  destruct (contracts self !! _) as [ci|]; [|reflexivity].
  destruct (contract ci log) as [[name args]|]; [|reflexivity].
  destruct (EventType_of_value name); reflexivity.
Qed.

Lemma _process_transaction_chains chain tx block self :
  chains (fst (_process_transaction chain tx block self)) = chains self.
Proof.
  unfold _process_transaction.
  destruct (chains self !! chain) as [info|] eqn:Hinfo; [|reflexivity].
  destruct (eth_get_transaction_receipt (web3 info) (tx_hash tx)) as [logs|]; [|reflexivity].
  cbn [fst]. clear Hinfo. revert self.
  induction logs as [|log logs IH]; intros self; [reflexivity|].
  cbn [fold_left]. rewrite IH.
  destruct (decide _); [apply _parse_event_log_chains | reflexivity].
Qed.

Lemma process_transactions_chains chain block txs : ∀ self,
  chains (fst (process_transactions chain block txs self)) = chains self.
Proof.
  induction txs as [|tx txs IH]; intros self; [reflexivity|].
  cbn [process_transactions].
  set (step := match tx_to tx with Some _ => _ | None => _ end).
  assert (Hstep : chains (fst step) = chains self).
  { unfold step. destruct (tx_to tx) as [to|]; [|reflexivity].
    destruct (decide (to = "")); [reflexivity|].
    destruct (decide _); [apply _process_transaction_chains | reflexivity]. }
  destruct step as [self1 log1]. cbn [fst] in Hstep.
  specialize (IH self1). destruct (process_transactions chain block txs self1).
  cbn [fst] in *. congruence.
Qed.

(** A block whose fetch fails is logged and the call returns. *)
Lemma _process_block_returns chain n self info :
  chains self !! chain = Some info ->
  ∃ self1 log1,
    _process_block chain n self = (self1, log1, Returned)
    ∧ chains self1 = chains self
    ∧ (eth_get_block (web3 info) n = None ->
       log1 = [logger_error (ErrorProcessingBlock n (chain_value chain))]).
Proof.
  intros Hinfo. unfold _process_block. rewrite Hinfo.
  destruct (eth_get_block (web3 info) n) as [block|].
  - pose proof (process_transactions_chains chain block (transactions block) self) as Hc.
    destruct (process_transactions chain block (transactions block) self) as [self1 log1].
    exists self1, log1. split; [reflexivity|]. split; [exact Hc | discriminate].
  - eexists. eexists. split; [reflexivity|]. split; reflexivity.
Qed.

Lemma process_blocks_returns chain info nums : ∀ self,
  chains self !! chain = Some info ->
  ∃ self1 log1,
    process_blocks chain nums self = (self1, log1, Returned)
    ∧ chains self1 = chains self
    ∧ ∀ n, n ∈ nums -> eth_get_block (web3 info) n = None ->
           logger_error (ErrorProcessingBlock n (chain_value chain)) ∈ log1.
Proof.
  induction nums as [|n nums IH]; intros self Hinfo.
  - exists self, []. split; [reflexivity|]. split; [reflexivity|].
    intros n Hn. inversion Hn.
  - destruct (_process_block_returns chain n self info Hinfo)
      as (self1 & log1 & Hblock & Hchains & Hlog).
    assert (Hinfo1 : chains self1 !! chain = Some info) by (rewrite Hchains; exact Hinfo).
    destruct (IH self1 Hinfo1) as (self2 & log2 & Hrest & Hchains2 & Hlog2).
    exists self2, (log1 ++ log2). cbn [process_blocks]. rewrite Hblock, Hrest.
    split; [reflexivity|]. split; [congruence|].
    intros m Hm Hfail. apply elem_of_app. apply elem_of_cons in Hm as [-> | Hm].
    + left. rewrite (Hlog Hfail). apply list_elem_of_singleton. reflexivity.
    + right. apply Hlog2; assumption.
Qed.

Lemma elem_of_range lo hi n : n ∈ range lo hi <-> lo <= n < hi.
Proof.
  unfold range. rewrite list_elem_of_fmap. split.
  - intros (i & -> & Hi). apply elem_of_seq in Hi. lia.
  - intros Hn. exists (Z.to_nat (n - lo)). split; [lia|]. apply elem_of_seq. lia.
Qed.

(** C3 (amended). In a polling pass the cursor moves to the fetched head
    whenever the head itself is fetched: a block whose fetch fails is logged
    inside [_process_block], the pass goes on with the next block, and the
    cursor still advances.  Only a failure to fetch the head abandons the
    pass, leaving the monitor, and so the cursor, unchanged, with a 30 second
    pause. *)
Theorem cursor_after_polling_pass (chain : ChainType) (self : BlockchainMonitor)
    (info : ChainInfo) :
  chains self !! chain = Some info ->
  (eth_block_number (web3 info) = None ->
   monitor_chain_pass chain self
   = Some (self, [logger_error (ErrorMonitoring (chain_value chain))], 30))
  ∧ (∀ head, eth_block_number (web3 info) = Some head ->
       ∃ self1 log1,
         monitor_chain_pass chain self = Some (self1, log1, block_time info)
         ∧ cursor chain self1 = Some head
         ∧ ∀ n, (if last_block info =? 0 then head - 100 else last_block info) < n <= head ->
                eth_get_block (web3 info) n = None ->
                logger_error (ErrorProcessingBlock n (chain_value chain)) ∈ log1).
Proof.
  intros Hinfo. unfold monitor_chain_pass. rewrite Hinfo. split.
  - intros Hhead. rewrite Hhead. reflexivity.
  - intros head Hhead. rewrite Hhead.
    set (first := if last_block info =? 0 then head - 100 else last_block info).
    destruct (process_blocks_returns chain info (range (first + 1) (head + 1)) self Hinfo)
      as (self1 & log1 & Hpass & Hchains & Hlog).
    rewrite Hpass. eexists. eexists. split; [reflexivity|]. split.
    + unfold cursor. cbn [chains set_chains].
      rewrite lookup_alter_eq, Hchains, Hinfo. reflexivity.
    + intros n Hn Hfail. apply Hlog; [|exact Hfail]. apply elem_of_range. lia.
Qed.

Lemma cursor_after_polling_pass_witness :
  (eth_block_number failing_provider = None ->
   monitor_chain_pass ETHEREUM monitor_at_block_10
   = Some (monitor_at_block_10, [logger_error (ErrorMonitoring "ethereum")], 30))
  ∧ (∀ head, eth_block_number failing_provider = Some head ->
       ∃ self1 log1,
         monitor_chain_pass ETHEREUM monitor_at_block_10 = Some (self1, log1, 12)
         ∧ cursor ETHEREUM self1 = Some head
         ∧ ∀ n, (if 10 =? 0 then head - 100 else 10) < n <= head ->
                eth_get_block failing_provider n = None ->
                logger_error (ErrorProcessingBlock n "ethereum") ∈ log1).
Proof.
  exact (cursor_after_polling_pass ETHEREUM monitor_at_block_10
           {| web3 := failing_provider; block_time := 12; last_block := 10 |}
           eq_refl).
Defined.

(** C3, the claim as worded.  Every block fetch of the pass fails, and the
    cursor moves from 10 to the head 12 all the same. *)
Lemma cursor_advances_past_failed_blocks :
  eth_get_block failing_provider 11 = None
  ∧ eth_get_block failing_provider 12 = None
  ∧ cursor ETHEREUM monitor_at_block_10 = Some 10
  ∧ ∃ self1 log1 pause,
      monitor_chain_pass ETHEREUM monitor_at_block_10 = Some (self1, log1, pause)
      ∧ log1 = [logger_error (ErrorProcessingBlock 11 "ethereum");
                logger_error (ErrorProcessingBlock 12 "ethereum")]
      ∧ cursor ETHEREUM self1 = Some 12.
Proof.
  split; [reflexivity|]. split; [reflexivity|]. split; [vm_compute; reflexivity|].
  eexists. eexists. eexists. split; [vm_compute; reflexivity|].
  split; [reflexivity | vm_compute; reflexivity].
Qed.

(** * Further properties of the code *)

(** ** The detector's rules *)

Lemma fired_alerts_cases now event window a :
  a ∈ fired_alerts now event window ->
  (a ∈ large_vote_alerts now event ∧ alert_type a = "large_vote")
  ∨ (a ∈ rapid_voting_alerts now event window ∧ alert_type a = "rapid_voting")
  ∨ (a ∈ coordinated_voting_alerts now event window
     ∧ alert_type a = "coordinated_voting").
Proof.
  unfold fired_alerts. rewrite !elem_of_app. intros [H | [H | H]].
  - left. split; [exact H|]. unfold large_vote_alerts in H.
    destruct (large_vote_threshold <? _); [|inversion H].
    apply list_elem_of_singleton in H. subst a. reflexivity.
  - right. left. split; [exact H|]. unfold rapid_voting_alerts in H.
    destruct (1 <? length window)%nat; [|inversion H].
    destruct (window !! _); [|inversion H].
    destruct (Qltb _ _); [|inversion H].
    apply list_elem_of_singleton in H. subst a. reflexivity.
  - right. right. split; [exact H|]. unfold coordinated_voting_alerts in H.
    destruct (_ && _); [|inversion H].
    apply list_elem_of_singleton in H. subst a. reflexivity.
Qed.

(** A vote fires [large_vote] exactly when its voting power exceeds 100000;
    the threshold itself does not fire. *)
Theorem large_vote_rule (now : datetime) (event : VoteEvent) (d : AnomalyDetector) :
  (∃ a, a ∈ new_alerts now event d ∧ alert_type a = "large_vote")
  <-> 100000 < voting_power event.
Proof.
  rewrite new_alerts_eq. split.
  - intros (a & Hin & Hty). apply fired_alerts_cases in Hin as [[H _] | [[_ H] | [_ H]]].
    + unfold large_vote_alerts in H. destruct (Z.ltb_spec large_vote_threshold (voting_power event)) as [Hlt|];
        [exact Hlt | inversion H].
    + rewrite Hty in H. discriminate H.
    + rewrite Hty in H. discriminate H.
  - intros Hlt. apply Z.ltb_lt in Hlt. eexists. split.
    + unfold fired_alerts, large_vote_alerts. unfold large_vote_threshold. rewrite Hlt.
      apply elem_of_app. left. apply list_elem_of_singleton. reflexivity.
    + reflexivity.
Qed.

Lemma deque_append_previous {A} (x : A) (w : list A) :
  let w' := deque_append recent_votes_maxlen x w in
  (if (1 <? length w')%nat then w' !! (length w' - 2)%nat else None) = last w.
Proof.
  unfold deque_append, recent_votes_maxlen.
  destruct (Nat.leb_spec 100 (length w)) as [Hfull | Hroom]; cbv zeta.
  - rewrite length_app, length_drop. cbn [length].
    destruct (Nat.ltb_spec 1 (length w - 1 + 1)) as [_|]; [|lia].
    rewrite lookup_app_l by (rewrite length_drop; lia).
    rewrite lookup_drop, last_lookup. f_equal. lia.
  - rewrite length_app. cbn [length].
    destruct w as [|y w]; [reflexivity|].
    destruct (Nat.ltb_spec 1 (length (y :: w) + 1)) as [_|Hlen]; [|cbn [length] in Hlen; lia].
    rewrite lookup_app_l by (cbn [length]; lia).
    rewrite last_lookup. f_equal. cbn [length]. lia.
Qed.

(** A vote fires [rapid_voting] exactly when the window already held a vote
    and the newest of them is stamped less than 60 seconds before this vote
    (or after it): only that one entry is compared, whatever its proposal
    or voter. *)
Theorem rapid_voting_rule (now : datetime) (event : VoteEvent) (d : AnomalyDetector) :
  (∃ a, a ∈ new_alerts now event d ∧ alert_type a = "rapid_voting")
  <-> ∃ prev, last (recent_votes d) = Some prev
              ∧ event_time event - event_time prev < timedelta_seconds 60.
Proof.
  rewrite new_alerts_eq.
  pose proof (deque_append_previous event (recent_votes d)) as Hprev. cbv zeta in Hprev.
  set (w' := deque_append recent_votes_maxlen event (recent_votes d)) in *.
  assert (Hrapid : rapid_voting_alerts now event w' <> []
                   <-> ∃ prev, last (recent_votes d) = Some prev
                        ∧ event_time event - event_time prev < timedelta_seconds 60).
  { unfold rapid_voting_alerts. rewrite <- Hprev.
    destruct (1 <? length w')%nat.
    - destruct (w' !! (length w' - 2)%nat) as [prev|].
      + unfold rapid_voting_threshold. rewrite Qltb_total_seconds.
        unfold timedelta_seconds.
        destruct (Z.ltb_spec (event_time event - event_time prev) (60 * 1000000)).
        * split; [intros _; exists prev; split; [reflexivity | assumption] | discriminate].
        * split; [congruence|]. intros (p & Hp & Hlt). inversion Hp; subst. lia.
      + split; [congruence | intros (p & Hp & _); discriminate Hp].
    - split; [congruence | intros (p & Hp & _); discriminate Hp]. }
  rewrite <- Hrapid. split.
  - intros (a & Hin & Hty) Hnil.
    apply fired_alerts_cases in Hin as [[_ H] | [[H _] | [_ H]]].
    + rewrite Hty in H. discriminate H.
    + rewrite Hnil in H. inversion H.
    + rewrite Hty in H. discriminate H.
  - intros Hne. destruct (rapid_voting_alerts now event w') as [|a l] eqn:E; [congruence|].
    exists a. split.
    + unfold fired_alerts. rewrite E, !elem_of_app. right. left. left.
    + assert (Ha : a ∈ fired_alerts now event w').
      { unfold fired_alerts. rewrite E, !elem_of_app. right. left. left. }
      assert (Ha' : a ∈ rapid_voting_alerts now event w') by (rewrite E; left).
      clear -Ha'. unfold rapid_voting_alerts in Ha'.
      destruct (1 <? length w')%nat; [|inversion Ha'].
      destruct (w' !! _); [|inversion Ha'].
      destruct (Qltb _ _); [|inversion Ha'].
      apply list_elem_of_singleton in Ha'. subst a. reflexivity.
Qed.

(** ** The alert list while votes are processed *)


Lemma fired_alerts_length now event window :
  (length (fired_alerts now event window) <= 3)%nat.
Proof.
  unfold fired_alerts, large_vote_alerts, rapid_voting_alerts, coordinated_voting_alerts.
  rewrite !length_app.
  destruct (large_vote_threshold <? _), (1 <? length window)%nat, (_ && _);
    try destruct (window !! _); try destruct (Qltb _ _); cbn [length]; lia.
Qed.

Lemma feed_detector_alerts_snoc events e d :
  alerts (feed_detector (events ++ [e]) d)
  = alerts (feed_detector events d)
    ++ new_alerts (fst e) (snd e) (feed_detector events d).
Proof.
  rewrite feed_detector_snoc, new_alerts_eq, check_voting_anomaly_eq. reflexivity.
Qed.

(** Processing votes never removes or reorders an alert: the list before
    is a prefix of the list after, which grows by at most three alerts per
    vote. *)
Theorem alerts_only_grow (events : list (datetime * VoteEvent)) (d : AnomalyDetector) :
  alerts d `prefix_of` alerts (feed_detector events d)
  ∧ (length (alerts (feed_detector events d))
     <= length (alerts d) + 3 * length events)%nat.
Proof.
  induction events as [|e events [IHp IHl]] using rev_ind.
  - split; [reflexivity | simpl; lia].
  - rewrite feed_detector_alerts_snoc, new_alerts_eq. split.
    + apply prefix_app_r, IHp.
    + rewrite !length_app. cbn [length].
      pose proof (fired_alerts_length (fst e) (snd e)
                    (deque_append recent_votes_maxlen (snd e)
                       (recent_votes (feed_detector events d)))).
      lia.
Qed.


Lemma process_vote_events_detector events : ∀ self,
  anomaly_detector (fst (process_vote_events events self))
  = feed_detector events (anomaly_detector self).
Proof.
  induction events as [|[now event] events IH]; intros self; [reflexivity|].
  cbn [process_vote_events].
  pose proof (process_vote_event_eq now event self) as E.
  destruct (process_vote_event now event self) as [self1 log1].
  specialize (IH self1). destruct (process_vote_events events self1) as [self2 log2].
  cbn [fst] in *. rewrite IH. inversion E; subst. reflexivity.
Qed.

Lemma filter_is_warning_alert_log l : List.filter is_warning (alert_log l) = alert_log l.
Proof. induction l as [|a l IH]; [reflexivity|]. cbn. f_equal. exact IH. Qed.

Lemma alert_log_length l : length (alert_log l) = length l.
Proof. apply length_map. Qed.

(** The log of a processed stream holds one INFO line per vote and one
    WARNING line per alert created, and nothing else. *)
Theorem one_warning_per_alert (events : list (datetime * VoteEvent)) (self : EventProcessor) :
  let self' := fst (process_vote_events events self) in
  let log := snd (process_vote_events events self) in
  length (alerts (anomaly_detector self'))
  = (length (alerts (anomaly_detector self)) + length (List.filter is_warning log))%nat
  ∧ length log = (length events + length (List.filter is_warning log))%nat
  ∧ Forall (fun r => level r = INFO ∨ level r = WARNING) log.
Proof.
  revert self. induction events as [|[now event] events IH]; intros self.
  - cbn. split; [lia|]. split; [reflexivity | constructor].
  - cbn [process_vote_events].
    pose proof (process_vote_event_eq now event self) as E.
    destruct (process_vote_event now event self) as [self1 log1].
    specialize (IH self1). cbv zeta in IH.
    destruct (process_vote_events events self1) as [self2 log2].
    cbn [fst snd] in *. destruct IH as (IHa & IHl & IHf).
    inversion E; subst self1 log1. clear E.
    cbn [anomaly_detector] in IHa.
    rewrite check_voting_anomaly_eq in *. cbn [fst snd alerts] in *.
    set (fired := fired_alerts now event _) in *.
    cbn [app List.filter is_warning logger_info level].
    rewrite List.filter_app, filter_is_warning_alert_log.
    rewrite IHa. rewrite !length_app in *. cbn [length].
    rewrite !length_app, !alert_log_length.
    split; [lia|]. split; [lia|].
    constructor; [left; reflexivity|]. apply Forall_app_2; [|exact IHf].
    unfold alert_log. apply Forall_fmap, Forall_forall. intros a _. right. reflexivity.
Qed.

(** ** Proposal aggregates *)

(** ProposalCreated for an id overwrites whatever entry the id had: the
    tallies, the voter set and the samples start empty again, and a first
    snapshot carries no average interval.  Other proposals, the voter
    profiles and the detector are left alone, and the event joins the
    proposal history. *)
Theorem proposal_created_overwrites (created : ProposalEvent) (self : EventProcessor) :
  let self' := fst (process_proposal_event created self) in
  get_proposal_analytics self' (pe_proposal_id created)
  = Some {| snap_created_at := pe_event_time created;
            snap_votes_for := 0; snap_votes_against := 0;
            snap_unique_voters := 0; snap_voting_velocity := [];
            snap_gas_analysis := {| total_spent := 0; avg_price := 0 |};
            snap_sentiment_score := 0%Q;
            avg_voting_interval := None |}
  ∧ (∀ pid, pid <> pe_proposal_id created ->
       get_proposal_analytics self' pid = get_proposal_analytics self pid)
  ∧ voting_patterns self' = voting_patterns self
  ∧ anomaly_detector self' = anomaly_detector self
  ∧ event_history self' !! "proposals"
    = Some (default [] (event_history self !! "proposals") ++ [created]).
Proof.
  intros self'. split; [|split; [|split; [|split]]].
  - unfold get_proposal_analytics, self'. cbn [fst process_proposal_event proposal_analytics].
    rewrite lookup_insert_eq. cbn. rewrite size_empty. reflexivity.
  - intros pid Hne. unfold get_proposal_analytics, self'.
    cbn [fst process_proposal_event proposal_analytics].
    rewrite lookup_insert_ne by congruence. reflexivity.
  - reflexivity.
  - reflexivity.
  - unfold self'. cbn [fst process_proposal_event event_history].
    apply lookup_insert_eq.
Qed.

(** A vote never creates an analytics entry and touches no entry but the
    one of its own proposal id. *)
Theorem vote_touches_only_its_proposal (now : datetime) (event : VoteEvent)
    (self : EventProcessor) :
  let self' := fst (process_vote_event now event self) in
  dom (proposal_analytics self') = dom (proposal_analytics self)
  ∧ ∀ pid, pid <> proposal_id event ->
      get_proposal_analytics self' pid = get_proposal_analytics self pid.
Proof.
  intros self'. unfold self'. rewrite process_vote_event_eq.
  cbn [fst proposal_analytics]. split.
  - destruct (proposal_analytics self !! proposal_id event) as [a|] eqn:E; [|reflexivity].
    rewrite dom_insert_L. apply elem_of_dom_2 in E. set_solver.
  - intros pid Hne. unfold get_proposal_analytics. cbn [proposal_analytics].
    destruct (proposal_analytics self !! proposal_id event) as [a|]; [|reflexivity].
    rewrite lookup_insert_ne by congruence. reflexivity.
Qed.

Lemma process_vote_events_velocity events : ∀ self pid a,
  proposal_analytics self !! pid = Some a ->
  ∃ a', proposal_analytics (fst (process_vote_events events self)) !! pid = Some a'
        ∧ voting_velocity a'
          = voting_velocity a ++ samples_from (unique_voters a) (votes_on pid events)
        ∧ unique_voters a'
          = unique_voters a ∪ list_to_set (map voter (votes_on pid events)).
Proof.
  induction events as [|[now event] events IH]; intros self pid a Ha.
  - exists a. simpl. split; [exact Ha|]. split; [rewrite app_nil_r; reflexivity | set_solver].
  - simpl. destruct (process_vote_event now event self) as [self1 log1] eqn:E1.
    destruct (process_vote_events events self1) as [self2 log2] eqn:E2.
    pose proof (process_vote_event_lookup now event self pid a Ha) as H1.
    rewrite E1 in H1. cbn [fst] in H1.
    destruct (IH self1 pid _ H1) as (a' & Hlook & Hvel & Hset).
    rewrite E2 in Hlook. cbn [fst] in *.
    exists a'. split; [exact Hlook|].
    unfold votes_on in *. cbn [map snd List.filter].
    destruct (proposal_id event =? pid).
    + unfold update_analytics in Hvel, Hset. cbn in Hvel, Hset.
      cbn [samples_from map]. split.
      * rewrite Hvel, <- app_assoc. reflexivity.
      * rewrite Hset. set_solver.
    + split; assumption.
Qed.

Lemma samples_from_length votes : ∀ voters,
  length (samples_from voters votes) = length votes.
Proof. induction votes as [|e votes IH]; intros voters; cbn; [|rewrite IH]; reflexivity. Qed.

Lemma samples_from_timestamps votes : ∀ voters,
  map vs_timestamp (samples_from voters votes) = map event_time votes.
Proof. induction votes as [|e votes IH]; intros voters; cbn; [|rewrite IH]; reflexivity. Qed.

Lemma size_union_singleton_le (voters : gset string) (v : string) :
  (size (voters ∪ {[v]}) <= S (size voters))%nat.
Proof.
  rewrite size_union_alt.
  assert (size (({[v]} : gset string) ∖ voters) <= 1)%nat.
  { rewrite <- (size_singleton (C := gset string) v). apply subseteq_size. set_solver. }
  lia.
Qed.

Lemma size_union_votes_le votes : ∀ voters : gset string,
  (size (voters ∪ list_to_set (map voter votes)) <= size voters + length votes)%nat.
Proof.
  induction votes as [|e votes IH]; intros voters; cbn [map list_to_set length].
  - rewrite (right_id_L ∅ (∪)). lia.
  - rewrite (assoc_L (∪)). specialize (IH (voters ∪ {[voter e]})).
    pose proof (size_union_singleton_le voters (voter e)). lia.
Qed.

Lemma samples_from_bounds votes : ∀ voters : gset string,
  Forall (fun x => (1 <= cumulative_votes x
                    <= size (voters ∪ list_to_set (map voter votes)))%nat)
         (samples_from voters votes).
Proof.
  induction votes as [|e votes IH]; intros voters; [constructor|].
  cbn [samples_from map list_to_set]. rewrite (assoc_L (∪)). constructor.
  - cbn [cumulative_votes]. split.
    + rewrite <- (size_singleton (C := gset string) (voter e)).
      apply subseteq_size. set_solver.
    + apply subseteq_size. set_solver.
  - apply IH.
Qed.

Lemma samples_from_last votes : ∀ (voters : gset string) x,
  last (samples_from voters votes) = Some x ->
  cumulative_votes x = size (voters ∪ list_to_set (map voter votes)).
Proof.
  induction votes as [|e votes IH]; intros voters x; [discriminate|].
  cbn [samples_from map list_to_set]. rewrite (assoc_L (∪)).
  destruct votes as [|e' votes].
  - cbn. intros [= <-]. cbn. rewrite (right_id_L ∅ (∪)). reflexivity.
  - intros Hlast. apply IH. exact Hlast.
Qed.

(** Since its creation a proposal holds one velocity sample per vote cast
    on it, stamped with the votes' times in arrival order; every sample's
    cumulative count lies between 1 and the final unique-voter count, the
    last sample's equals it, and the unique-voter count never exceeds the
    number of votes. *)
Theorem velocity_samples_follow_votes (self : EventProcessor) (created : ProposalEvent)
    (events : list (datetime * VoteEvent)) :
  let pid := pe_proposal_id created in
  let self1 := fst (process_proposal_event created self) in
  let self2 := fst (process_vote_events events self1) in
  let votes := votes_on pid events in
  ∃ snapshot,
    get_proposal_analytics self2 pid = Some snapshot
    ∧ length (snap_voting_velocity snapshot) = length votes
    ∧ map vs_timestamp (snap_voting_velocity snapshot) = map event_time votes
    ∧ (snap_unique_voters snapshot <= length votes)%nat
    ∧ Forall (fun x => (1 <= cumulative_votes x <= snap_unique_voters snapshot)%nat)
             (snap_voting_velocity snapshot)
    ∧ (∀ x, last (snap_voting_velocity snapshot) = Some x ->
            cumulative_votes x = snap_unique_voters snapshot).
Proof.
  intros pid self1 self2 votes.
  assert (H1 : proposal_analytics self1 !! pid = Some (new_analytics created))
    by apply lookup_insert_eq.
  destruct (process_vote_events_velocity events self1 pid _ H1) as (a' & Hlook & Hvel & Hset).
  fold self2 votes in Hlook, Hvel, Hset. cbn [new_analytics voting_velocity unique_voters app] in *.
  unfold get_proposal_analytics. rewrite Hlook.
  eexists. split; [reflexivity|].
  cbn [snap_voting_velocity snap_unique_voters]. rewrite Hvel, Hset.
  split; [apply samples_from_length|]. split; [apply samples_from_timestamps|].
  split; [|split].
  - pose proof (size_union_votes_le votes ∅) as H. rewrite size_empty in H. exact H.
  - apply samples_from_bounds.
  - apply samples_from_last.
Qed.

(** ** The average interval telescopes *)






(** ** Voter profiles *)

Lemma votes_of_process_vote_event_other now event self address :
  voter event <> address ->
  votes_of (fst (process_vote_event now event self)) address = votes_of self address.
Proof.
  intros Hne. rewrite process_vote_event_eq. unfold votes_of. cbn [fst voting_patterns].
  rewrite votes_of_update_voting_patterns. rewrite decide_False by exact Hne. reflexivity.
Qed.

Lemma votes_of_process_vote_events events address : ∀ self,
  votes_of (fst (process_vote_events events self)) address
  = votes_of self address ++ map vote_record (votes_by address events).
Proof.
  induction events as [|[now event] events IH]; intros self.
  - cbn. rewrite app_nil_r. reflexivity.
  - cbn [process_vote_events].
    destruct (process_vote_event now event self) as [self1 log1] eqn:E1.
    specialize (IH self1).
    destruct (process_vote_events events self1) as [self2 log2].
    cbn [fst] in *. rewrite IH. unfold votes_by. cbn [map snd]. rewrite filter_cons.
    assert (Hself1 : self1 = fst (process_vote_event now event self)) by (rewrite E1; reflexivity).
    destruct (decide (voter event = address)) as [Heq | Hne].
    + rewrite Hself1. subst address. rewrite votes_of_process_vote_event.
      cbn [map]. rewrite <- app_assoc. reflexivity.
    + rewrite Hself1, votes_of_process_vote_event_other by exact Hne. reflexivity.
Qed.

Lemma support_votes_vote_record votes :
  support_votes (map vote_record votes) = length (filter (fun e => support e = true) votes).
Proof.
  unfold support_votes. induction votes as [|e votes IH]; [reflexivity|].
  cbn [map List.filter vote_record vr_support]. rewrite filter_cons.
  destruct (support e); cbn [length]; rewrite ?IH;
    [rewrite decide_True by reflexivity | rewrite decide_False by discriminate];
    reflexivity.
Qed.

(** A voter's profile counts every vote the address has cast, whether or
    not the proposal was known: after a stream processed from the initial
    state the profile is empty exactly when the address cast no vote, and
    otherwise its total is the number of its votes and its support ratio
    the share of them cast in favour. *)
Theorem profile_counts_every_vote (strftime_Ym : datetime -> string)
    (events : list (datetime * VoteEvent)) (address : string) :
  let self := fst (process_vote_events events EventProcessor_init) in
  let mine := votes_by address events in
  (mine = [] -> get_voter_profile strftime_Ym self address = None)
  ∧ (mine <> [] ->
     ∃ profile,
       get_voter_profile strftime_Ym self address = Some profile
       ∧ total_votes profile = length mine
       ∧ support_ratio profile
         = (inject_Z (Z.of_nat (length (filter (fun e => support e = true) mine)))
            / inject_Z (Z.of_nat (length mine)))%Q).
Proof.
  intros self mine.
  assert (Hvotes : votes_of self address = map vote_record mine).
  { unfold self. rewrite votes_of_process_vote_events. reflexivity. }
  split.
  - intros Hnil. apply get_voter_profile_no_votes. rewrite Hvotes, Hnil. reflexivity.
  - intros Hne. destruct (map vote_record mine) as [|v vs] eqn:E.
    { destruct mine; [congruence | discriminate E]. }
    rewrite (get_voter_profile_votes strftime_Ym self address v vs Hvotes).
    eexists. split; [reflexivity|]. cbn [total_votes support_ratio].
    rewrite <- E, length_map, support_votes_vote_record. split; reflexivity.
Qed.

Lemma fold_left_min_spec (l : list Z) : ∀ a,
  fold_left Z.min l a <= a
  ∧ Forall (fun x => fold_left Z.min l a <= x) l
  ∧ fold_left Z.min l a ∈ a :: l.
Proof.
  induction l as [|b l IH]; intros a.
  - cbn. split; [lia|]. split; [constructor | left].
  - cbn [fold_left]. destruct (IH (Z.min a b)) as (Hle & Hall & Hin).
    split; [lia|]. split.
    + constructor; [lia | exact Hall].
    + apply elem_of_cons in Hin as [Heq | Hin].
      * rewrite Heq. destruct (Z.min_spec a b) as [[_ ->] | [_ ->]];
          [left | right; left].
      * right. right. exact Hin.
Qed.

Lemma fold_left_max_spec (l : list Z) : ∀ a,
  a <= fold_left Z.max l a
  ∧ Forall (fun x => x <= fold_left Z.max l a) l
  ∧ fold_left Z.max l a ∈ a :: l.
Proof.
  induction l as [|b l IH]; intros a.
  - cbn. split; [lia|]. split; [constructor | left].
  - cbn [fold_left]. destruct (IH (Z.max a b)) as (Hle & Hall & Hin).
    split; [lia|]. split.
    + constructor; [lia | exact Hall].
    + apply elem_of_cons in Hin as [Heq | Hin].
      * rewrite Heq. destruct (Z.max_spec a b) as [[_ ->] | [_ ->]];
          [right; left | left].
      * right. right. exact Hin.
Qed.

Lemma ratio_bounds (s n : nat) :
  (s <= n)%nat -> (0 < n)%nat ->
  (0 <= inject_Z (Z.of_nat s) / inject_Z (Z.of_nat n)
   ∧ inject_Z (Z.of_nat s) / inject_Z (Z.of_nat n) <= 1)%Q.
Proof.
  intros Hs Hn. destruct n as [|n]; [lia|].
  unfold Qdiv, Qinv, Qmult, Qle, inject_Z.
  rewrite Nat2Z.inj_succ, <- Z.add_1_r. cbn [Qnum Qden].
  destruct (Z.of_nat n + 1) eqn:E; try lia.
  cbn [Qnum Qden]. rewrite Pos.mul_1_l. split; lia.
Qed.

Lemma support_votes_le votes : (support_votes votes <= length votes)%nat.
Proof. unfold support_votes. apply List.filter_length_le. Qed.

(** Whenever an address has a profile, its support ratio lies between 0 and
    1, its first and last vote times are the least and the greatest
    timestamp among its recorded votes, and its total is their number. *)
Theorem profile_bounds (strftime_Ym : datetime -> string) (self : EventProcessor)
    (address : string) (profile : VoterProfile) :
  get_voter_profile strftime_Ym self address = Some profile ->
  let votes := votes_of self address in
  total_votes profile = length votes
  ∧ (0 < total_votes profile)%nat
  ∧ (0 <= support_ratio profile ∧ support_ratio profile <= 1)%Q
  ∧ first_vote profile <= last_vote profile
  ∧ Forall (fun v => first_vote profile <= vr_timestamp v <= last_vote profile) votes
  ∧ first_vote profile ∈ map vr_timestamp votes
  ∧ last_vote profile ∈ map vr_timestamp votes.
Proof.
  intros Hget votes.
  destruct votes as [|v vs] eqn:E.
  { rewrite (get_voter_profile_no_votes strftime_Ym self address E) in Hget.
    discriminate Hget. }
  rewrite (get_voter_profile_votes strftime_Ym self address v vs E) in Hget.
  injection Hget as <-. cbn [total_votes support_ratio first_vote last_vote].
  destruct (fold_left_min_spec (map vr_timestamp vs) (vr_timestamp v)) as (Hmin1 & Hmin2 & Hmin3).
  destruct (fold_left_max_spec (map vr_timestamp vs) (vr_timestamp v)) as (Hmax1 & Hmax2 & Hmax3).
  split; [reflexivity|]. split; [cbn; lia|].
  split; [apply ratio_bounds; [apply support_votes_le | cbn; lia]|].
  split; [lia|]. split; [|split; [exact Hmin3 | exact Hmax3]].
  constructor; [lia|].
  rewrite Forall_fmap in Hmin2, Hmax2.
  rewrite Forall_forall in *. intros x Hx. specialize (Hmin2 x Hx). specialize (Hmax2 x Hx).
  cbn in *. lia.
Qed.

Lemma profile_bounds_witness :
  let self :=
    fst (process_vote_events [ (0, vote_at 1 "X" true 500 10);
                               (0, vote_at 7 "X" false 300 40) ] EventProcessor_init) in
  ∃ profile,
    get_voter_profile (fun _ => "1970-01") self "X" = Some profile
    ∧ total_votes profile = length (votes_of self "X")
    ∧ (0 < total_votes profile)%nat
    ∧ (0 <= support_ratio profile ∧ support_ratio profile <= 1)%Q
    ∧ first_vote profile <= last_vote profile
    ∧ Forall (fun v => first_vote profile <= vr_timestamp v <= last_vote profile)
             (votes_of self "X")
    ∧ first_vote profile ∈ map vr_timestamp (votes_of self "X")
    ∧ last_vote profile ∈ map vr_timestamp (votes_of self "X").
Proof.
  intros self.
  destruct (get_voter_profile (fun _ => "1970-01") self "X") as [profile|] eqn:E;
    [|vm_compute in E; discriminate E].
  exists profile. split; [reflexivity|].
  exact (profile_bounds (fun _ => "1970-01") self "X" profile E).
Defined.

(** ** The most active month *)

Lemma incr_count_keys key counts k :
  k ∈ map fst (incr_count key counts) <-> k = key ∨ k ∈ map fst counts.
Proof.
  induction counts as [|[k' n'] counts IH]; cbn [incr_count map fst].
  - rewrite list_elem_of_singleton, elem_of_nil. tauto.
  - destruct (decide (k' = key)) as [-> | Hne]; cbn [map fst].
    + rewrite !elem_of_cons. tauto.
    + rewrite !elem_of_cons, IH. tauto.
Qed.

Lemma incr_count_NoDup key counts :
  NoDup (map fst counts) -> NoDup (map fst (incr_count key counts)).
Proof.
  induction counts as [|[k' n'] counts IH]; cbn [incr_count map fst]; intros Hnd.
  - apply NoDup_singleton.
  - apply NoDup_cons in Hnd as [Hnotin Hnd].
    destruct (decide (k' = key)) as [-> | Hne]; cbn [map fst].
    + apply NoDup_cons. split; assumption.
    + apply NoDup_cons. split; [|apply IH, Hnd].
      rewrite incr_count_keys. intros [-> | Hin]; [congruence | contradiction].
Qed.

Lemma incr_count_elem key counts k n :
  NoDup (map fst counts) ->
  (k, n) ∈ incr_count key counts ->
  (k <> key ∧ (k, n) ∈ counts)
  ∨ (k = key ∧ ((∃ m, n = S m ∧ (key, m) ∈ counts)
                ∨ (n = 1%nat ∧ key ∉ map fst counts))).
Proof.
  induction counts as [|[k' n'] counts IH]; cbn [incr_count map fst]; intros Hnd Hin.
  - apply list_elem_of_singleton in Hin. injection Hin as -> ->.
    right. split; [reflexivity|]. right. split; [reflexivity | apply not_elem_of_nil].
  - apply NoDup_cons in Hnd as [Hnotin Hnd].
    destruct (decide (k' = key)) as [-> | Hne].
    + apply elem_of_cons in Hin as [Heq | Hin].
      * injection Heq as -> ->. right. split; [reflexivity|]. left.
        exists n'. split; [reflexivity | left].
      * left. split; [|right; exact Hin].
        intros ->. apply Hnotin. apply (list_elem_of_fmap_2 fst) in Hin. exact Hin.
    + apply elem_of_cons in Hin as [Heq | Hin].
      * injection Heq as -> ->. left. split; [exact Hne | left].
      * destruct (IH Hnd Hin) as [[Hk Hin'] | [-> [(m & -> & Hm) | [-> Hfresh]]]].
        -- left. split; [exact Hk | right; exact Hin'].
        -- right. split; [reflexivity|]. left. exists m. split; [reflexivity | right; exact Hm].
        -- right. split; [reflexivity|]. right. split; [reflexivity|].
           rewrite not_elem_of_cons. split; [congruence | exact Hfresh].
Qed.

Lemma votes_in_month_snoc strftime_Ym k seen v :
  votes_in_month strftime_Ym k (seen ++ [v])
  = (votes_in_month strftime_Ym k seen + (if decide (strftime_Ym (vr_timestamp v) = k) then 1 else 0))%nat.
Proof.
  unfold votes_in_month. rewrite filter_app, length_app. f_equal.
  rewrite filter_cons, filter_nil.
  destruct (decide (strftime_Ym (vr_timestamp v) = k)); reflexivity.
Qed.

Lemma votes_in_month_unseen strftime_Ym k seen :
  (∀ v, v ∈ seen -> strftime_Ym (vr_timestamp v) <> k) -> votes_in_month strftime_Ym k seen = 0%nat.
Proof.
  intros H. unfold votes_in_month.
  induction seen as [|v seen IH]; [reflexivity|].
  rewrite filter_cons. rewrite decide_False by (apply H; left).
  apply IH. intros v' Hv'. apply H. right. exact Hv'.
Qed.

Lemma counts_agree_step strftime_Ym counts seen v :
  counts_agree strftime_Ym counts seen ->
  counts_agree strftime_Ym (incr_count (strftime_Ym (vr_timestamp v)) counts) (seen ++ [v]).
Proof.
  intros (Hnd & Hval & Hseen & Hkeys). split; [apply incr_count_NoDup, Hnd|].
  split; [|split].
  - intros k n Hin. rewrite votes_in_month_snoc.
    destruct (incr_count_elem _ _ _ _ Hnd Hin)
      as [[Hk Hin'] | [-> [(m & -> & Hm) | [-> Hfresh]]]].
    + rewrite decide_False by congruence. rewrite <- (Hval k n Hin'). lia.
    + rewrite decide_True by reflexivity. rewrite <- (Hval _ m Hm). lia.
    + rewrite decide_True by reflexivity.
      rewrite votes_in_month_unseen; [reflexivity|].
      intros v' Hv' Heq. apply Hfresh. rewrite <- Heq. apply Hseen, Hv'.
  - intros v' Hv'. rewrite incr_count_keys.
    apply elem_of_app in Hv' as [Hv' | Hv'].
    + right. apply Hseen, Hv'.
    + apply list_elem_of_singleton in Hv'. subst v'. left. reflexivity.
  - intros k Hk. apply incr_count_keys in Hk as [-> | Hk].
    + exists v. split; [apply elem_of_app; right; left | reflexivity].
    + destruct (Hkeys k Hk) as (v' & Hv' & Heq).
      exists v'. split; [apply elem_of_app; left; exact Hv' | exact Heq].
Qed.

Lemma counts_agree_fold strftime_Ym votes : ∀ counts seen,
  counts_agree strftime_Ym counts seen ->
  counts_agree strftime_Ym
    (fold_left (fun counts vote => incr_count (strftime_Ym (vr_timestamp vote)) counts)
               votes counts)
    (seen ++ votes).
Proof.
  induction votes as [|v votes IH]; intros counts seen H.
  - rewrite app_nil_r. exact H.
  - cbn [fold_left]. replace (seen ++ v :: votes) with ((seen ++ [v]) ++ votes)
      by (rewrite <- app_assoc; reflexivity).
    apply IH. apply (counts_agree_step strftime_Ym counts seen v H).
Qed.

Lemma max_by_count_spec rest : ∀ first,
  ∃ best, best ∈ first :: rest
          ∧ max_by_count first rest = fst best
          ∧ ∀ kv, kv ∈ first :: rest -> (snd kv <= snd best)%nat.
Proof.
  unfold max_by_count.
  induction rest as [|kv rest IH]; intros first.
  - exists first. split; [left|]. split; [reflexivity|].
    intros kv Hkv. apply list_elem_of_singleton in Hkv. subst. lia.
  - cbn [fold_left].
    destruct (IH (if (snd first <? snd kv)%nat then kv else first))
      as (best & Hin & Heq & Hmax).
    exists best. split; [|split; [exact Heq|]].
    + apply elem_of_cons in Hin as [-> | Hin].
      * destruct (snd first <? snd kv)%nat; [right; left | left].
      * right. right. exact Hin.
    + intros kv' Hkv'.
      assert (Hpick : (snd first <= snd best ∧ snd kv <= snd best)%nat).
      { pose proof (Hmax _ (list_elem_of_here _ _)) as H0.
        destruct (Nat.ltb_spec (snd first) (snd kv)); lia. }
      apply elem_of_cons in Hkv' as [-> | Hkv']; [lia|].
      apply elem_of_cons in Hkv' as [-> | Hkv']; [lia|].
      apply Hmax. right. exact Hkv'.
Qed.

(** With fewer than two votes the most active period is the text
    [insufficient_data]; with two or more it is the month of one of the
    votes, and no month holds more of the votes than it does. *)
Theorem most_active_period_is_a_busiest_month (strftime_Ym : datetime -> string)
    (votes : list VoteRecord) :
  ((length votes < 2)%nat ->
   _find_most_active_period strftime_Ym votes = "insufficient_data")
  ∧ ((2 <= length votes)%nat ->
     (∃ v, v ∈ votes
           ∧ strftime_Ym (vr_timestamp v) = _find_most_active_period strftime_Ym votes)
     ∧ ∀ month,
         (votes_in_month strftime_Ym month votes
          <= votes_in_month strftime_Ym
               (_find_most_active_period strftime_Ym votes) votes)%nat).
Proof.
  unfold _find_most_active_period. split.
  - intros Hlen. apply Nat.ltb_lt in Hlen. rewrite Hlen. reflexivity.
  - intros Hlen. destruct (Nat.ltb_spec (length votes) 2) as [|_]; [lia|].
    assert (Hinit : counts_agree strftime_Ym [] []).
    { split; [constructor|]. split; [intros k n H; inversion H|].
      split; [intros v H; inversion H | intros k H; inversion H]. }
    pose proof (counts_agree_fold strftime_Ym votes [] [] Hinit) as (Hnd & Hval & Hseen & Hkeys).
    cbn [app] in *.
    set (counts := fold_left _ votes []) in *.
    destruct counts as [|first rest] eqn:Ecounts.
    { destruct votes as [|v votes]; [cbn in Hlen; lia|].
      specialize (Hseen v (list_elem_of_here _ _)). inversion Hseen. }
    destruct (max_by_count_spec rest first) as (best & Hin & Heq & Hmax).
    rewrite Heq.
    assert (Hbest : snd best = votes_in_month strftime_Ym (fst best) votes).
    { apply Hval. destruct best; exact Hin. }
    split.
    + destruct (Hkeys (fst best)) as (v & Hv & Hm).
      { apply (list_elem_of_fmap_2 fst) in Hin. exact Hin. }
      exists v. split; assumption.
    + intros month.
      destruct (decide (month ∈ map fst (first :: rest))) as [Hk | Hk].
      * apply list_elem_of_fmap in Hk as ([k n] & -> & Hkn). cbn [fst].
        rewrite <- (Hval k n Hkn), <- Hbest. apply (Hmax _ Hkn).
      * rewrite votes_in_month_unseen; [lia|].
        intros v Hv Heq'. apply Hk. rewrite <- Heq'. apply Hseen, Hv.
Qed.

(** ** What the scanner enqueues *)


Lemma set_event_queue_twice q1 q2 self :
  set_event_queue q2 (set_event_queue q1 self) = set_event_queue q2 self.
Proof. reflexivity. Qed.










Lemma range_empty lo hi : hi <= lo -> range lo hi = [].
Proof.
  intros H. unfold range. replace (Z.to_nat (hi - lo)) with 0%nat by lia. reflexivity.
Qed.



(** The cursor follows the head even downwards: when the provider reports
    a head at or below a non-zero cursor, the pass fetches no block, logs
    and enqueues nothing, and stores that head as the new cursor. *)
Theorem cursor_follows_a_lower_head (chain : ChainType) (self : BlockchainMonitor)
    (info : ChainInfo) (head : Z) :
  chains self !! chain = Some info ->
  eth_block_number (web3 info) = Some head ->
  last_block info <> 0 ->
  head <= last_block info ->
  monitor_chain_pass chain self
  = Some (set_chains (alter (set_last_block head) chain (chains self)) self,
          [], block_time info)
  ∧ ∀ self1 log1 pause,
      monitor_chain_pass chain self = Some (self1, log1, pause) ->
      cursor chain self1 = Some head ∧ event_queue self1 = event_queue self.
Proof.
  intros Hinfo Hhead Hnz Hle.
  assert (Hpass : monitor_chain_pass chain self
                  = Some (set_chains (alter (set_last_block head) chain (chains self)) self,
                          [], block_time info)).
  { unfold monitor_chain_pass. rewrite Hinfo, Hhead.
    destruct (Z.eqb_spec (last_block info) 0) as [|_]; [contradiction|].
    rewrite range_empty by lia. reflexivity. }
  split; [exact Hpass|]. intros self1 log1 pause H. rewrite Hpass in H.
  injection H as <- _ _. split; [|reflexivity].
  unfold cursor. cbn [chains set_chains]. rewrite lookup_alter_eq, Hinfo. reflexivity.
Qed.

Lemma cursor_follows_a_lower_head_witness :
  let info := {| web3 := failing_provider; block_time := 12; last_block := 20 |} in
  let self := set_chains {[ ETHEREUM := info ]} monitor_at_block_10 in
  cursor ETHEREUM self = Some 20
  ∧ monitor_chain_pass ETHEREUM self
    = Some (set_chains (alter (set_last_block 12) ETHEREUM (chains self)) self, [], 12)
  ∧ ∀ self1 log1 pause,
      monitor_chain_pass ETHEREUM self = Some (self1, log1, pause) ->
      cursor ETHEREUM self1 = Some 12 ∧ event_queue self1 = event_queue self.
Proof.
  intros info self. split; [reflexivity|].
  refine (cursor_follows_a_lower_head ETHEREUM self info 12 eq_refl eq_refl _ _);
    cbn; lia.
Defined.

(** ** The queue consumer *)

(** The consumer takes the oldest queued event and leaves the others in
    order; on an empty queue it does nothing.  An event of a kind other
    than ProposalCreated and VoteCast is consumed without any effect on
    the analytics and without a log line. *)
Theorem consumer_takes_the_oldest_event (now : datetime) (self : BlockchainMonitor) :
  (event_queue self = [] -> _process_events now self = (self, []))
  ∧ ∀ event rest, event_queue self = event :: rest ->
      event_queue (fst (_process_events now self)) = rest
      ∧ chains (fst (_process_events now self)) = chains self
      ∧ contracts (fst (_process_events now self)) = contracts self
      ∧ (be_event_type event <> PROPOSAL_CREATED ->
         be_event_type event <> VOTE_CAST ->
         _process_events now self = (set_event_queue rest self, [])).
Proof.
  unfold _process_events. split.
  - intros ->. reflexivity.
  - intros event rest ->.
    destruct (_handle_blockchain_event now event
                (event_processor (set_event_queue rest self))) as [[ep log]|] eqn:E.
    + cbn. repeat split. intros H1 H2. unfold _handle_blockchain_event in E.
      destruct (be_event_type event); try congruence;
        injection E as <- <-; destruct self; reflexivity.
    + cbn. repeat split. intros H1 H2. unfold _handle_blockchain_event in E.
      destruct (be_event_type event); congruence.
Qed.

(** A VoteCast event lacking one of the arguments the handler reads
    ([proposalId], [voter], [support], [weight]) is consumed and lost: the
    error is logged, and analytics, profiles and detector stay unchanged. *)
Theorem vote_with_missing_argument_is_discarded (now : datetime)
    (self : BlockchainMonitor) (event : BlockchainEvent) (rest : list BlockchainEvent) :
  event_queue self = event :: rest ->
  be_event_type event = VOTE_CAST ->
  data event !! "proposalId" = None ∨ data event !! "voter" = None
  ∨ data event !! "support" = None ∨ data event !! "weight" = None ->
  _process_events now self
  = (set_event_queue rest self, [logger_error ErrorProcessingEvent]).
Proof.
  intros Hq Hty Hmissing. unfold _process_events. rewrite Hq.
  assert (Hnone : _handle_blockchain_event now event
                    (event_processor (set_event_queue rest self)) = None).
  { unfold _handle_blockchain_event, data_int, data_str. rewrite Hty.
    destruct Hmissing as [H | [H | [H | H]]]; rewrite H;
      repeat match goal with
             | |- context [match ?m !! ?k with _ => _ end] => destruct (m !! k) as [[]|]
             | |- context [?m !! ?k ≫= _] => destruct (m !! k)
             end; reflexivity. }
  rewrite Hnone. reflexivity.
Qed.

Lemma vote_with_missing_argument_is_discarded_witness :
  let event :=
    {| be_chain := ETHEREUM; be_event_type := VOTE_CAST; transaction_hash := "0xT";
       be_block_number := 1; be_timestamp := 0; contract_address := "0xC";
       data := {[ "proposalId" := PyInt 1; "voter" := PyStr "0xA"; "support" := PyInt 1 ]};
       gas_used := 0; gas_price := 0 |} in
  let self := set_event_queue [event] BlockchainMonitor_init in
  _process_events 0 self = (set_event_queue [] self, [logger_error ErrorProcessingEvent]).
Proof.
  intros event self.
  refine (vote_with_missing_argument_is_discarded 0 self event [] eq_refl eq_refl _).
  right. right. right. vm_compute. reflexivity.
Defined.

(** The support argument is read as a truth value: a VoteCast whose support
    number is anything but 0, such as 2, adds its weight to the votes in
    favour, and one with support 0 adds it to the votes against. *)
Theorem nonzero_support_counts_in_favour (now : datetime) (self : BlockchainMonitor)
    (event : BlockchainEvent) (rest : list BlockchainEvent)
    (pid weight flag : Z) (who : string) (a : Analytics) :
  event_queue self = event :: rest ->
  be_event_type event = VOTE_CAST ->
  data event !! "proposalId" = Some (PyInt pid) ->
  data event !! "voter" = Some (PyStr who) ->
  data event !! "support" = Some (PyInt flag) ->
  data event !! "weight" = Some (PyInt weight) ->
  proposal_analytics (event_processor self) !! pid = Some a ->
  ∃ snapshot,
    get_proposal_analytics (event_processor (fst (_process_events now self))) pid
    = Some snapshot
    ∧ snap_votes_for snapshot = votes_for a + (if flag =? 0 then 0 else weight)
    ∧ snap_votes_against snapshot = votes_against a + (if flag =? 0 then weight else 0).
Proof.
  intros Hq Hty Hpid Hwho Hflag Hweight Ha.
  unfold _process_events. rewrite Hq.
  rewrite (handle_vote_cast now event _ pid who (PyInt flag) weight Hty);
    try (unfold data_int, data_str; rewrite ?Hpid, ?Hwho, ?Hweight; reflexivity);
    [|exact Hflag].
  set (vote := {| proposal_id := pid |}).
  pose proof (process_vote_event_lookup now vote
                (event_processor (set_event_queue rest self)) pid a Ha) as Hlook.
  destruct (process_vote_event now vote (event_processor (set_event_queue rest self)))
    as [ep log].
  cbn [fst set_event_processor event_processor] in *.
  change (proposal_id vote) with pid in Hlook. rewrite Z.eqb_refl in Hlook.
  unfold get_proposal_analytics. rewrite Hlook. eexists. split; [reflexivity|].
  cbn. destruct (flag =? 0); cbn; split; lia.
Qed.

Lemma nonzero_support_counts_in_favour_witness :
  let event :=
    {| be_chain := ETHEREUM; be_event_type := VOTE_CAST; transaction_hash := "0xT";
       be_block_number := 1; be_timestamp := 0; contract_address := "0xC";
       data := {[ "proposalId" := PyInt 1; "voter" := PyStr "0xA"; "support" := PyInt 2;
                  "weight" := PyInt 500 ]};
       gas_used := 0; gas_price := 0 |} in
  let self :=
    set_event_queue [event]
      (set_event_processor (fst (process_proposal_event sample_proposal EventProcessor_init))
         BlockchainMonitor_init) in
  ∃ snapshot,
    get_proposal_analytics (event_processor (fst (_process_events 0 self))) 1 = Some snapshot
    ∧ snap_votes_for snapshot = 0 + (if 2 =? 0 then 0 else 500)
    ∧ snap_votes_against snapshot = 0 + (if 2 =? 0 then 500 else 0).
Proof.
  intros event self.
  exact (nonzero_support_counts_in_favour 0 self event [] 1 500 2 "0xA"
           (new_analytics sample_proposal) eq_refl eq_refl eq_refl eq_refl eq_refl eq_refl
           eq_refl).
Defined.

(** ** Cleanup and statistics *)

Lemma filter_filter_implied {A} (f g : A -> bool) (l : list A) :
  (∀ x, g x = true -> f x = true) ->
  List.filter g (List.filter f l) = List.filter g l.
Proof.
  intros H. induction l as [|x l IH]; [reflexivity|].
  cbn [List.filter]. destruct (f x) eqn:Ef, (g x) eqn:Eg; cbn [List.filter];
    rewrite ?Eg, ?IH; try reflexivity.
  apply H in Eg. congruence.
Qed.



(** Cleanup never removes an alert that the statistics still count as
    active: at any time not before the cleanup pass, the number of alerts
    raised within the last hour is the same with and without the pass. *)
Theorem cleanup_keeps_active_alerts (now1 now2 : datetime) (self : BlockchainMonitor) :
  now1 <= now2 ->
  active_alerts (fst (get_realtime_stats now2 (fst (fst (_cleanup_old_data now1 self)))))
  = active_alerts (fst (get_realtime_stats now2 self)).
Proof.
  intros Hle. unfold get_realtime_stats, _cleanup_old_data. cbn. f_equal.
  apply filter_filter_implied. intros a.
  rewrite Qltb_total_seconds, !Z.ltb_lt. unfold timedelta_days. lia.
Qed.

Lemma cleanup_keeps_active_alerts_witness :
  0 <= timedelta_seconds 60
  ∧ active_alerts (fst (get_realtime_stats (timedelta_seconds 60)
                          (fst (fst (_cleanup_old_data 0
                                       (monitor_with_alerts [week_old_alert]))))))
    = active_alerts (fst (get_realtime_stats (timedelta_seconds 60)
                            (monitor_with_alerts [week_old_alert]))).
Proof.
  assert (H : 0 <= timedelta_seconds 60) by (vm_compute; discriminate).
  split; [exact H|].
  exact (cleanup_keeps_active_alerts 0 (timedelta_seconds 60)
           (monitor_with_alerts [week_old_alert]) H).
Defined.





Lemma handle_event_keeps_proposal_count now event ep ep' log :
  _handle_blockchain_event now event ep = Some (ep', log) ->
  (size (proposal_analytics ep)
   <= length (default [] (event_history ep !! "proposals")))%nat ->
  (size (proposal_analytics ep')
   <= length (default [] (event_history ep' !! "proposals")))%nat.
Proof.
  unfold _handle_blockchain_event. intros H Hinv.
  destruct (be_event_type event);
    try (injection H as <- <-; exact Hinv).
  - repeat match type of H with
           | (?o ≫= _) = Some _ => destruct o; [cbn [mbind option_bind] in H | discriminate H]
           end.
    injection H as <- _. cbn [process_proposal_event fst proposal_analytics event_history].
    rewrite lookup_insert_eq. cbn [from_option id]. rewrite length_app. cbn [length].
    rewrite map_size_insert. cbn [pe_proposal_id].
    destruct (proposal_analytics ep !! _); unfold id in *; lia.
  - repeat match type of H with
           | (?o ≫= _) = Some _ => destruct o; [cbn [mbind option_bind] in H | discriminate H]
           end.
    injection H as H. rewrite process_vote_event_eq in H. injection H as <- _.
    cbn [proposal_analytics event_history].
    match goal with
    | |- context [proposal_analytics ep !! ?k] =>
        destruct (proposal_analytics ep !! k) eqn:E; [|exact Hinv]
    end.
    rewrite map_size_insert, E. exact Hinv.
Qed.

(** However the consumer is run from the initial monitor, the statistics'
    proposal counter, which counts every ProposalCreated event handled,
    repeats included, is never below the number of proposals that have an
    analytics entry. *)
Theorem proposals_monitored_bounds_tracked (now : datetime) (nows : list datetime)
    (queue : list BlockchainEvent) :
  let self := run_consumer nows (set_event_queue queue BlockchainMonitor_init) in
  (size (proposal_analytics (event_processor self))
   <= total_proposals_monitored (fst (get_realtime_stats now self)))%nat.
Proof.
  cbn zeta. unfold get_realtime_stats. cbn [fst total_proposals_monitored].
  assert (Hinit : (size (proposal_analytics
                           (event_processor (set_event_queue queue BlockchainMonitor_init)))
                   <= length (default [] (event_history
                        (event_processor (set_event_queue queue BlockchainMonitor_init))
                        !! "proposals")))%nat).
  { cbn. rewrite map_size_empty. lia. }
  revert Hinit. generalize (set_event_queue queue BlockchainMonitor_init).
  induction nows as [|t nows IH]; intros self Hinv; [exact Hinv|].
  cbn [run_consumer]. apply IH. unfold _process_events.
  destruct (event_queue self) as [|event rest]; [exact Hinv|].
  cbn [set_event_queue event_processor].
  destruct (_handle_blockchain_event t event (event_processor self)) as [[ep log]|] eqn:E;
    cbn [fst set_event_processor set_event_queue event_processor]; [|exact Hinv].
  exact (handle_event_keeps_proposal_count t event _ ep log E Hinv).
Qed.

(** ** Registration of chains and contracts *)

Lemma contract_key_inj chain1 address1 chain2 address2 :
  contract_key chain1 address1 = contract_key chain2 address2 ->
  chain1 = chain2 ∧ address1 = address2.
Proof.
  unfold contract_key. intros H.
  destruct chain1, chain2; cbv in H; try discriminate H; inversion H;
    split; reflexivity.
Qed.

(** [add_contract] raises on a chain that was not initialised.  When it
    succeeds, the contract is stored under its chain and the address exactly
    as passed, with the given type; the entries of every other chain and
    address pair, the chains, the queue and the analytics are unchanged. *)
Theorem add_contract_registers (ABI : Type)
    (to_checksum_address : string -> option string)
    (eth_contract : Web3 -> string -> ABI
                    -> option (Log -> option (string * gmap string PyValue)))
    (chain : ChainType) (address : string) (abi : ABI) (contract_type : string)
    (self : BlockchainMonitor) :
  let result :=
    add_contract ABI to_checksum_address eth_contract chain address abi contract_type self in
  (chains self !! chain = None -> result = None)
  ∧ ∀ self' log, result = Some (self', log) ->
      (∃ ci, contracts self' !! contract_key chain address = Some ci
             ∧ ci_address ci = address ∧ ci_chain ci = chain
             ∧ ci_type ci = contract_type)
      ∧ (∀ chain' address', (chain', address') <> (chain, address) ->
           contracts self' !! contract_key chain' address'
           = contracts self !! contract_key chain' address')
      ∧ chains self' = chains self
      ∧ event_queue self' = event_queue self
      ∧ event_processor self' = event_processor self.
Proof.
  intros result. unfold result, add_contract. split.
  - intros ->. reflexivity.
  - intros self' log H.
    destruct (chains self !! chain) as [info|]; [|discriminate H].
    cbn [mbind option_bind] in H.
    destruct (to_checksum_address address) as [checksummed|]; [|discriminate H].
    cbn [mbind option_bind] in H.
    destruct (eth_contract (web3 info) checksummed abi) as [decoder|]; [|discriminate H].
    cbn [mbind option_bind] in H. injection H as <- _. cbn [contracts chains event_queue event_processor].
    split; [|split; [|repeat split]].
    + eexists. split; [apply lookup_insert_eq|]. repeat split.
    + intros chain' address' Hne. apply lookup_insert_ne.
      intros Hkey. apply contract_key_inj in Hkey as [-> ->]. apply Hne. reflexivity.
Qed.



Lemma initialize_chain_fold connect l : ∀ self chain,
  chains (fold_left (fun self chain => initialize_chain connect chain self) l self) !! chain
  = if decide (chain ∈ l)
    then Some {| web3 := connect (rpc_url (get_config chain)) (is_poa_chain chain);
                 block_time := config_block_time (get_config chain);
                 last_block := 0 |}
    else chains self !! chain.
Proof.
  induction l as [|c l IH]; intros self chain.
  - cbn. rewrite decide_False by apply not_elem_of_nil. reflexivity.
  - cbn [fold_left]. rewrite IH.
    destruct (decide (chain ∈ l)) as [Hin | Hnotin].
    + rewrite decide_True by (right; exact Hin). reflexivity.
    + unfold initialize_chain. cbn [chains set_chains].
      destruct (decide (chain = c)) as [-> | Hne].
      * rewrite decide_True by left. rewrite lookup_insert_eq. reflexivity.
      * rewrite decide_False by (rewrite elem_of_cons; tauto).
        rewrite lookup_insert_ne by congruence. reflexivity.
Qed.

(** [initialize_chains] gives every listed chain the cursor 0 and the block
    interval of its configuration, forgetting any cursor the chain had, and
    leaves unlisted chains alone.  A chain without a configuration of its
    own, which is the case of Optimism and BSC only, gets Ethereum's. *)
Theorem initialize_chains_resets_cursors (connect : string -> bool -> Web3)
    (l : list ChainType) (self : BlockchainMonitor) :
  let self' := fst (initialize_chains connect l self) in
  (∀ chain, chain ∈ l ->
     cursor chain self' = Some 0
     ∧ block_time <$> chains self' !! chain = Some (config_block_time (get_config chain)))
  ∧ (∀ chain, chain ∉ l -> chains self' !! chain = chains self !! chain)
  ∧ (∀ chain, CONFIGS !! chain = None <-> chain = OPTIMISM ∨ chain = BSC)
  ∧ (∀ chain, CONFIGS !! chain = None -> get_config chain = ETHEREUM_CONFIG).
Proof.
  intros self'. unfold self', initialize_chains, cursor. cbn [fst].
  split; [|split; [|split]].
  - intros chain Hin. rewrite initialize_chain_fold, decide_True by exact Hin.
    split; reflexivity.
  - intros chain Hnotin. rewrite initialize_chain_fold, decide_False by exact Hnotin.
    reflexivity.
  - intros chain. destruct chain; vm_compute; split;
      try discriminate; try tauto; intros [H | H]; discriminate H.
  - intros chain H. unfold get_config. rewrite H. reflexivity.
Qed.

(** ** Ties between months *)

Lemma incr_count_keys_eq key counts :
  map fst (incr_count key counts)
  = if decide (key ∈ map fst counts) then map fst counts else map fst counts ++ [key].
Proof.
  induction counts as [|[k n] counts IH]; cbn [incr_count map fst].
  - rewrite decide_False by apply not_elem_of_nil. reflexivity.
  - destruct (decide (k = key)) as [-> | Hne]; cbn [map fst].
    + rewrite decide_True by left. reflexivity.
    + rewrite IH. destruct (decide (key ∈ map fst counts)) as [Hin | Hnotin].
      * rewrite decide_True by (right; exact Hin). reflexivity.
      * rewrite decide_False by (rewrite elem_of_cons; intros [? | ?]; congruence).
        reflexivity.
Qed.

Lemma keys_order_step strftime_Ym counts seen v :
  counts_agree strftime_Ym counts seen ->
  keys_in_first_seen_order strftime_Ym (map fst counts) seen ->
  keys_in_first_seen_order strftime_Ym
    (map fst (incr_count (strftime_Ym (vr_timestamp v)) counts)) (seen ++ [v]).
Proof.
  intros (Hnd & Hval & Hseen & Hkeys) Hord. rewrite incr_count_keys_eq.
  assert (Hold : ∀ i j k k', (i < j)%nat -> map fst counts !! i = Some k ->
                   map fst counts !! j = Some k' ->
                   ∃ pre u post, seen ++ [v] = pre ++ u :: post
                                 ∧ strftime_Ym (vr_timestamp u) = k
                                 ∧ ∀ w, w ∈ pre -> strftime_Ym (vr_timestamp w) <> k').
  { intros i j k k' Hij Hi Hj.
    destruct (Hord i j k k' Hij Hi Hj) as (pre & u & post & -> & Hu & Hpre).
    exists pre, u, (post ++ [v]). split; [|split; assumption].
    rewrite <- app_assoc. reflexivity. }
  destruct (decide (strftime_Ym (vr_timestamp v) ∈ map fst counts)) as [Hin | Hnew];
    [exact Hold|].
  intros i j k k' Hij Hi Hj.
  destruct (decide (j < length (map fst counts))%nat) as [Hj' | Hj'].
  - rewrite lookup_app_l in Hi by lia. rewrite lookup_app_l in Hj by lia.
    exact (Hold i j k k' Hij Hi Hj).
  - assert (Hjl : j = length (map fst counts)).
    { apply lookup_lt_Some in Hj. rewrite length_app in Hj. cbn in Hj. lia. }
    rewrite lookup_app_l in Hi by lia.
    rewrite lookup_app_r in Hj by lia. rewrite Hjl, Nat.sub_diag in Hj.
    injection Hj as <-.
    destruct (Hkeys k) as (u & Hu & Hmonth).
    { apply list_elem_of_lookup. exists i. exact Hi. }
    apply list_elem_of_split in Hu as (pre & post & ->).
    exists pre, u, (post ++ [v]). split; [rewrite <- app_assoc; reflexivity|].
    split; [exact Hmonth|].
    intros w Hw Heq. apply Hnew. rewrite <- Heq. apply Hseen.
    apply elem_of_app. left. exact Hw.
Qed.

Lemma keys_order_fold strftime_Ym votes : ∀ counts seen,
  counts_agree strftime_Ym counts seen ->
  keys_in_first_seen_order strftime_Ym (map fst counts) seen ->
  keys_in_first_seen_order strftime_Ym
    (map fst (fold_left
                (fun counts vote => incr_count (strftime_Ym (vr_timestamp vote)) counts)
                votes counts))
    (seen ++ votes).
Proof.
  induction votes as [|v votes IH]; intros counts seen Hagree Hord.
  - rewrite app_nil_r. exact Hord.
  - cbn [fold_left]. replace (seen ++ v :: votes) with ((seen ++ [v]) ++ votes)
      by (rewrite <- app_assoc; reflexivity).
    apply IH; [apply counts_agree_step, Hagree | apply keys_order_step; assumption].
Qed.

Lemma max_by_count_first rest : ∀ first,
  ∃ i best,
    (first :: rest) !! i = Some best
    ∧ max_by_count first rest = fst best
    ∧ (∀ kv, kv ∈ first :: rest -> (snd kv <= snd best)%nat)
    ∧ (∀ j kv, (j < i)%nat -> (first :: rest) !! j = Some kv -> (snd kv < snd best)%nat).
Proof.
  unfold max_by_count.
  induction rest as [|kv rest IH]; intros first.
  - exists 0%nat, first. split; [reflexivity|]. split; [reflexivity|]. split.
    + intros kv Hkv. apply list_elem_of_singleton in Hkv. subst. lia.
    + intros j kv Hj. lia.
  - cbn [fold_left].
    set (acc := if (snd first <? snd kv)%nat then kv else first).
    destruct (IH acc) as (i & best & Hi & Heq & Hmax & Hbefore).
    assert (Hacc : (snd first <= snd acc ∧ snd kv <= snd acc)%nat).
    { unfold acc. destruct (Nat.ltb_spec (snd first) (snd kv)); lia. }
    assert (Haccbest : (snd acc <= snd best)%nat) by (apply Hmax; left).
    assert (Hall : ∀ kv', kv' ∈ first :: kv :: rest -> (snd kv' <= snd best)%nat).
    { intros kv' Hkv'.
      apply elem_of_cons in Hkv' as [-> | Hkv']; [lia|].
      apply elem_of_cons in Hkv' as [-> | Hkv']; [lia|].
      apply Hmax. right. exact Hkv'. }
    destruct i as [|i].
    + cbn in Hi. injection Hi as <-. unfold acc in *.
      destruct (Nat.ltb_spec (snd first) (snd kv)) as [Hlt | Hge].
      * exists 1%nat, kv. split; [reflexivity|]. split; [exact Heq|]. split; [exact Hall|].
        intros j kv' Hj Hlook. destruct j; [|lia]. cbn in Hlook. injection Hlook as <-. exact Hlt.
      * exists 0%nat, first. split; [reflexivity|]. split; [exact Heq|]. split; [exact Hall|].
        intros j kv' Hj. lia.
    + exists (S (S i)), best. split; [exact Hi|]. split; [exact Heq|]. split; [exact Hall|].
      intros j kv' Hj Hlook.
      assert (Hstrict : (snd acc < snd best)%nat).
      { apply (Hbefore 0%nat acc); [lia | reflexivity]. }
      destruct j as [|[|j]].
      * cbn in Hlook. injection Hlook as <-. lia.
      * cbn in Hlook. injection Hlook as <-. lia.
      * apply (Hbefore (S j) kv'); [lia | exact Hlook].
Qed.

(** Among months holding equally many votes the one met first wins: when
    another month has as many votes as the reported one, some vote of the
    reported month precedes every vote of that other month. *)
Theorem most_active_period_ties_go_to_the_earlier_month
    (strftime_Ym : datetime -> string) (votes : list VoteRecord) (month : string) :
  (2 <= length votes)%nat ->
  let reported := _find_most_active_period strftime_Ym votes in
  month <> reported ->
  votes_in_month strftime_Ym month votes = votes_in_month strftime_Ym reported votes ->
  ∃ pre v post,
    votes = pre ++ v :: post
    ∧ strftime_Ym (vr_timestamp v) = reported
    ∧ ∀ u, u ∈ pre -> strftime_Ym (vr_timestamp u) <> month.
Proof.
  intros Hlen reported Hne Htie. unfold reported, _find_most_active_period in *.
  destruct (Nat.ltb_spec (length votes) 2) as [|_]; [lia|].
  assert (Hinit : counts_agree strftime_Ym [] []).
  { split; [constructor|]. split; [intros k n H; inversion H|].
    split; [intros v H; inversion H | intros k H; inversion H]. }
  assert (Hinit' : keys_in_first_seen_order strftime_Ym
                     (map fst ([] : list (string * nat))) []).
  { intros i j k k' _ Hi. destruct i; discriminate Hi. }
  pose proof (counts_agree_fold strftime_Ym votes [] [] Hinit) as Hagree.
  pose proof (keys_order_fold strftime_Ym votes [] [] Hinit Hinit') as Hord.
  cbn [app] in *. destruct Hagree as (Hnd & Hval & Hseen & Hkeys).
  set (counts := fold_left _ votes []) in *.
  destruct counts as [|first rest] eqn:Ecounts.
  { destruct votes as [|v votes]; [cbn in Hlen; lia|].
    specialize (Hseen v (list_elem_of_here _ _)). inversion Hseen. }
  destruct (max_by_count_first rest first) as (i & best & Hi & Heq & Hmax & Hbefore).
  rewrite Heq in *.
  assert (Hbest : snd best = votes_in_month strftime_Ym (fst best) votes).
  { apply Hval. apply list_elem_of_lookup_2 in Hi. destruct best; exact Hi. }
  assert (Hpos : (0 < votes_in_month strftime_Ym (fst best) votes)%nat).
  { destruct (Hkeys (fst best)) as (v & Hv & Hm).
    { apply list_elem_of_lookup_2, (list_elem_of_fmap_2 fst) in Hi. exact Hi. }
    unfold votes_in_month.
    assert (Hvin : v ∈ filter (fun v => strftime_Ym (vr_timestamp v) = fst best) votes)
      by (apply list_elem_of_filter; split; assumption).
    destruct (filter _ votes); [inversion Hvin | cbn; lia]. }
  assert (Hmonth : month ∈ map fst (first :: rest)).
  { destruct (decide (month ∈ map fst (first :: rest))) as [H | H]; [exact H|].
    rewrite (votes_in_month_unseen strftime_Ym month votes) in Htie; [lia|].
    intros v Hv Hm. apply H. rewrite <- Hm. apply Hseen, Hv. }
  apply list_elem_of_lookup in Hmonth as (j & Hj).
  rewrite list_lookup_fmap in Hj.
  destruct ((first :: rest) !! j) as [[k n]|] eqn:Ej; [|discriminate Hj].
  cbn in Hj. injection Hj as ->.
  assert (Hn : n = votes_in_month strftime_Ym month votes).
  { apply Hval. apply list_elem_of_lookup_2 in Ej. exact Ej. }
  assert (Hij : (i < j)%nat).
  { destruct (Nat.lt_trichotomy i j) as [H | [H | H]]; [exact H | |].
    - subst j. rewrite Hi in Ej. injection Ej as ->. cbn in Hne. congruence.
    - specialize (Hbefore j (month, n) H Ej). cbn in Hbefore. lia. }
  apply (Hord i j (fst best) month Hij).
  - rewrite list_lookup_fmap, Hi. reflexivity.
  - rewrite list_lookup_fmap, Ej. reflexivity.
Qed.

Lemma most_active_period_ties_go_to_the_earlier_month_witness :
  let votes := [vote_record_at 5; vote_record_at 200] in
  _find_most_active_period two_month_calendar votes = "1970-01"
  ∧ ∃ pre v post,
      votes = pre ++ v :: post
      ∧ two_month_calendar (vr_timestamp v)
        = _find_most_active_period two_month_calendar votes
      ∧ ∀ u, u ∈ pre -> two_month_calendar (vr_timestamp u) <> "1970-02".
Proof.
  intros votes. split; [reflexivity|].
  refine (most_active_period_ties_go_to_the_earlier_month two_month_calendar votes
            "1970-02" _ _ _).
  - cbn. lia.
  - vm_compute. discriminate.
  - vm_compute. reflexivity.
Defined.

(** ** Draining the queue *)

Lemma _process_events_queue now self :
  event_queue (fst (_process_events now self)) = drop 1 (event_queue self)
  ∧ chains (fst (_process_events now self)) = chains self
  ∧ contracts (fst (_process_events now self)) = contracts self.
Proof.
  unfold _process_events. destruct (event_queue self) as [|event rest] eqn:E.
  - cbn. rewrite E. repeat split.
  - destruct (_handle_blockchain_event now event _) as [[ep log]|]; cbn; repeat split.
Qed.

(** Each iteration of the consumer removes exactly one event, whether its
    handling succeeds or raises: after as many iterations as clock
    readings, the queue is what it was without its first events, in the
    same order, and chains and registry are untouched. *)
Theorem consumer_drains_in_order (nows : list datetime) (self : BlockchainMonitor) :
  event_queue (run_consumer nows self) = drop (length nows) (event_queue self)
  ∧ chains (run_consumer nows self) = chains self
  ∧ contracts (run_consumer nows self) = contracts self.
Proof.
  revert self. induction nows as [|now nows IH]; intros self; [repeat split|].
  cbn [run_consumer length].
  destruct (_process_events_queue now self) as (Hq & Hc & Hr).
  destruct (IH (fst (_process_events now self))) as (IHq & IHc & IHr).
  rewrite IHq, IHc, IHr, Hq, Hc, Hr, drop_drop. repeat split.
Qed.

(** A ProposalCreated event that carries the arguments the handler reads
    opens (or reopens) the analytics entry of its proposal id, created at
    the event's block time, with empty tallies; absent [title] and [quorum]
    arguments are not an error. *)
Theorem proposal_created_event_opens_entry (now : datetime) (self : BlockchainMonitor)
    (event : BlockchainEvent) (rest : list BlockchainEvent)
    (pid start_block end_block : Z) (proposer description : string) :
  event_queue self = event :: rest ->
  be_event_type event = PROPOSAL_CREATED ->
  data event !! "proposalId" = Some (PyInt pid) ->
  data event !! "proposer" = Some (PyStr proposer) ->
  data event !! "description" = Some (PyStr description) ->
  data event !! "startBlock" = Some (PyInt start_block) ->
  data event !! "endBlock" = Some (PyInt end_block) ->
  let self' := fst (_process_events now self) in
  event_queue self' = rest
  ∧ get_proposal_analytics (event_processor self') pid
    = Some {| snap_created_at := be_timestamp event;
              snap_votes_for := 0; snap_votes_against := 0;
              snap_unique_voters := 0; snap_voting_velocity := [];
              snap_gas_analysis := {| total_spent := 0; avg_price := 0 |};
              snap_sentiment_score := 0%Q;
              avg_voting_interval := None |}.
Proof.
  intros Hq Hty Hpid Hproposer Hdescription Hstart Hend self'.
  unfold self', _process_events, _handle_blockchain_event, data_int, data_str.
  rewrite Hq, Hty, Hpid, Hproposer, Hdescription, Hstart, Hend.
  cbn [mbind option_bind fst set_event_processor set_event_queue event_queue
       event_processor process_proposal_event].
  split; [reflexivity|].
  unfold get_proposal_analytics. cbn [proposal_analytics pe_proposal_id].
  rewrite lookup_insert_eq. cbn. rewrite size_empty. reflexivity.
Qed.

Lemma proposal_created_event_opens_entry_witness :
  let event :=
    {| be_chain := ETHEREUM; be_event_type := PROPOSAL_CREATED; transaction_hash := "0xT";
       be_block_number := 1; be_timestamp := 77; contract_address := "0xC";
       data := {[ "proposalId" := PyInt 1; "proposer" := PyStr "0xP";
                  "description" := PyStr "d"; "startBlock" := PyInt 1;
                  "endBlock" := PyInt 2 ]};
       gas_used := 0; gas_price := 0 |} in
  let self := set_event_queue [event] BlockchainMonitor_init in
  let self' := fst (_process_events 0 self) in
  event_queue self' = []
  ∧ get_proposal_analytics (event_processor self') 1
    = Some {| snap_created_at := 77;
              snap_votes_for := 0; snap_votes_against := 0;
              snap_unique_voters := 0; snap_voting_velocity := [];
              snap_gas_analysis := {| total_spent := 0; avg_price := 0 |};
              snap_sentiment_score := 0%Q;
              avg_voting_interval := None |}.
Proof.
  intros event self.
  exact (proposal_created_event_opens_entry 0 self event [] 1 1 2 "0xP" "d"
           eq_refl eq_refl eq_refl eq_refl eq_refl eq_refl eq_refl).
Defined.
